(** * The EAS SDK schema encoder ([src/schema-encoder.ts])

    A shallow embedding of the [SchemaEncoder] class and the proofs of the
    properties stated about it.

    Layout:
    - [JS]          the JavaScript string and value operations the class uses;
    - [Ethers], [Multiformats]  the two libraries the class is written against,
                    as interfaces (fragment parser, ABI coder, CID codec), plus
                    the small pure utilities of ethers that are transcribed
                    ([isBytesLike], [formatBytes32String]);
    - the class itself, one definition per method, in a section over the two
      interfaces;
    - [Ref]         an executable reference implementation of both interfaces,
                    on which the encoder is run on concrete inputs;
    - the theorems. *)

From Stdlib Require Import Bool Arith ZArith NArith Lia List Ascii String.
From Stdlib Require Import Strings.Byte.
Import ListNotations.
Open Scope string_scope.
Set Warnings "-register-all".

(* ================================================================== *)
(** ** JavaScript strings *)

(** A JavaScript string is modelled by a Rocq [string]; each character
    stands for the UTF-16 code unit of the same number (0..255). *)

Module JS.

(** [\s] restricted to the code units below 256: TAB, LF, VT, FF, CR,
    SPACE and NBSP. *)
Definition is_whitespace (c : ascii) : bool :=
  let n := nat_of_ascii c in
  (Nat.leb 9 n && Nat.leb n 13) || Nat.eqb n 32 || Nat.eqb n 160.

(** [s.replace(/\s/g, '')] *)
Fixpoint remove_whitespace (s : string) : string :=
  match s with
  | EmptyString => EmptyString
  | String c t =>
      if is_whitespace c then remove_whitespace t
      else String c (remove_whitespace t)
  end.

(** [s.slice(n)] for [0 <= n]. *)
Fixpoint slice (n : nat) (s : string) : string :=
  match n, s with
  | O, _ => s
  | S _, EmptyString => EmptyString
  | S k, String _ t => slice k t
  end.

(** [s.includes(sub)] *)
Fixpoint includes (s sub : string) : bool :=
  prefix sub s ||
  match s with
  | EmptyString => false
  | String _ t => includes t sub
  end.

(** [s.replace(pat, rep)] with a string pattern: the first occurrence only. *)
Fixpoint replace (s pat rep : string) : string :=
  if prefix pat s then rep ++ slice (String.length pat) s
  else match s with
       | EmptyString => EmptyString
       | String c t => String c (replace t pat rep)
       end.

(** [s.replace(/pat/g, rep)] for a literal, non-empty pattern: the matches
    are taken from left to right and do not overlap. [skip] counts the
    characters of the current match that are still to be consumed. *)
Fixpoint replace_all_from (skip : nat) (s pat rep : string) : string :=
  match s with
  | EmptyString => EmptyString
  | String c t =>
      match skip with
      | S k => replace_all_from k t pat rep
      | O =>
          if prefix pat s
          then rep ++ replace_all_from (String.length pat - 1) t pat rep
          else String c (replace_all_from 0 t pat rep)
      end
  end.

Definition replace_all (s pat rep : string) : string :=
  replace_all_from 0 s pat rep.

(** [l.join(sep)] *)
Definition join (sep : string) (l : list string) : string := concat sep l.

End JS.

(* ================================================================== *)
(** ** Exceptions *)

(** Which library raised. *)
Inductive Library := LibEthers | LibMultiformats.

(** One constructor per [throw] of the class, one for an exception raised
    inside a library call, and one for the [TypeError] of the runtime
    (a property read on [undefined], a call of something that is no
    function). *)
Inductive Error :=
| InvalidNumberOfValues                      (* 'Invalid number or values' *)
| IncompatibleParamType (sanitizedType : string)
| IncompatibleParamName (name : string)
| UnexpectedInputs
| LibraryError (lib : Library)
| TypeError.

Inductive Result (A : Type) :=
| Ok (a : A)
| Throw (e : Error).
Arguments Ok {A} a.
Arguments Throw {A} e.

Definition bind {A B} (m : Result A) (k : A -> Result B) : Result B :=
  match m with
  | Ok a => k a
  | Throw e => Throw e
  end.

Notation "x <- m ;; k" := (bind m (fun x => k))
  (at level 61, m at next level, right associativity).

(** [try { m } catch { h }] *)
Definition try_catch {A} (m : Result A) (h : Error -> Result A) : Result A :=
  match m with
  | Ok a => Ok a
  | Throw e => h e
  end.

(** A library call that either returns or raises. *)
Definition call {A} (lib : Library) (r : option A) : Result A :=
  match r with
  | Some a => Ok a
  | None => Throw (LibraryError lib)
  end.

Definition returns {A} (m : Result A) : Prop := exists a, m = Ok a.
Definition throws {A} (m : Result A) : Prop := exists e, m = Throw e.

(** [for (const x of l) { ... push ... }] with a body that may throw. *)
Fixpoint mapM {A B} (f : A -> Result B) (l : list A) : Result (list B) :=
  match l with
  | [] => Ok []
  | x :: t => y <- f x ;; ys <- mapM f t ;; Ok (y :: ys)
  end.

(* ================================================================== *)
(** ** Values *)

(** The run-time values the encoder handles ([SchemaValue], and what the
    ABI coder returns): booleans, numbers, strings, [BigNumber]s,
    [Uint8Array]s and arrays (ethers' [Result] is an array). *)
Inductive Value :=
| VBool (b : bool)
| VNumber (n : Z)
| VString (s : string)
| VBigNumber (n : Z)
| VBytes (bs : list byte)
| VArray (vs : list Value).

Module Val.

(** [typeof v !== 'object'] *)
Definition not_object (v : Value) : bool :=
  match v with
  | VBool _ | VNumber _ | VString _ => true
  | VBigNumber _ | VBytes _ | VArray _ => false
  end.

(** [typeof v === 'string'] *)
Definition is_string (v : Value) : bool :=
  match v with VString _ => true | _ => false end.

(** [Array.isArray(v)] *)
Definition isArray (v : Value) : bool :=
  match v with VArray _ => true | _ => false end.

(** [v.length > 0]: [length] is [undefined] on booleans, numbers and
    [BigNumber]s, and [undefined > 0] is false. *)
Definition length_positive (v : Value) : bool :=
  match v with
  | VString s => negb (Nat.eqb (String.length s) 0)
  | VBytes bs => negb (Nat.eqb (List.length bs) 0)
  | VArray vs => negb (Nat.eqb (List.length vs) 0)
  | VBool _ | VNumber _ | VBigNumber _ => false
  end.

(** [Array.isArray(v[0])], for [v] with [v.length > 0]. *)
Definition first_isArray (v : Value) : bool :=
  match v with
  | VArray (v0 :: _) => isArray v0
  | _ => false
  end.

(** The elements of a value that has a [filter] method and can be iterated
    (an array, a typed array); [None] where [v.filter] is [undefined]. *)
Definition elements (v : Value) : option (list Value) :=
  match v with
  | VArray vs => Some vs
  | VBytes bs => Some (map (fun b => VNumber (Z.of_N (Byte.to_N b))) bs)
  | _ => None
  end.

End Val.

(* ================================================================== *)
(** ** Data model *)

(** A name is a string or [null]: ethers leaves the name of an anonymous
    parameter empty. [truthy] is the test of [name ? a : b]. *)
Definition Name := option string.

Definition truthy (name : Name) : bool :=
  match name with
  | Some s => negb (s =? "")
  | None => false
  end.

(** The text a template literal inserts for a truthy name. *)
Definition text (name : Name) : string :=
  match name with Some s => s | None => "null" end.

Definition Name_eqb (a b : Name) : bool :=
  match a, b with
  | Some x, Some y => x =? y
  | None, None => true
  | _, _ => false
  end.

(** ethers' [ParamType], with the three properties the class reads. *)
Module ParamType.
Inductive t := Build (name : Name) (type : string) (components : option (list t)).
Definition name (p : t) : Name := let 'Build n _ _ := p in n.
Definition type (p : t) : string := let 'Build _ ty _ := p in ty.
Definition components (p : t) : option (list t) := let 'Build _ _ cs := p in cs.
End ParamType.

(** [interface SchemaItem { name; type; value }]. The value is a
    [SchemaValue]; [V] tells which of its alternatives is held. *)
Module SchemaItem.
Record t (V : Type) := Build { name : Name; type : string; value : V }.
Arguments Build {V} name type value.
Arguments name {V} _.
Arguments type {V} _.
Arguments value {V} _.
End SchemaItem.

(** [interface SchemaItemWithSignature extends SchemaItem { signature }] *)
Module SchemaItemWithSignature.
Record t := Build
  { name : Name; type : string; signature : string; value : Value }.
End SchemaItemWithSignature.

(** What [decodeData] stores in the envelope of a field: the coder's value
    as it came, the labelled components of a tuple, or those of every
    element of an array of tuples. *)
Inductive DecodedValue :=
| Raw (v : Value)
| Named (namedValue : list (SchemaItem.t Value))
| NamedList (namedValues : list (list (SchemaItem.t Value))).

(** [interface SchemaDecodedItem { name; type; signature; value: SchemaItem }] *)
Module SchemaDecodedItem.
Record t := Build
  { name : Name; type : string; signature : string;
    value : SchemaItem.t DecodedValue }.
End SchemaDecodedItem.

(** multiformats' [MultihashDigest]. *)
Module MultihashDigest.
Record t := Build
  { digest : list byte; code : Z; size : Z; bytes : list byte }.
End MultihashDigest.

Definition TUPLE_TYPE := "tuple".
Definition TUPLE_ARRAY_TYPE := "tuple[]".

(** Modelled from the spec: [ZERO_ADDRESS] of [./utils], a file that is not
    among the sources; the spec calls it the all-zero address constant. *)
Definition ZERO_ADDRESS := "0x0000000000000000000000000000000000000000".

(* ================================================================== *)
(** ** The libraries *)

(** *** ethers: fragment parser and ABI coder, through their interface.
    [None] stands for a call that throws. *)
Class Ethers := {
  (** [FunctionFragment.from(text).inputs] *)
  FunctionFragment_from : string -> option (list ParamType.t);
  (** [defaultAbiCoder.getDefaultValue(inputs)]; only whether it returns
      matters to the class. *)
  defaultAbiCoder_getDefaultValue : list ParamType.t -> option unit;
  (** [defaultAbiCoder.encode(types, values)] *)
  defaultAbiCoder_encode : list string -> list Value -> option string;
  (** [defaultAbiCoder.decode(types, data)] *)
  defaultAbiCoder_decode : list string -> string -> option (list Value)
}.

(** *** multiformats: the CID codec, through its interface. *)
Class Multiformats := {
  CID : Type;
  (** [CID.parse(source)] *)
  CID_parse : Value -> option CID;
  (** [cid.multihash] *)
  CID_multihash : CID -> MultihashDigest.t;
  (** [CID.createV0(digest)] *)
  CID_createV0 : MultihashDigest.t -> CID;
  (** [cid.toString()] *)
  CID_toString : CID -> string
}.

(** *** Hexadecimal text *)
Module Hex.

Definition digit (n : N) : ascii :=
  ascii_of_N (if (n <? 10)%N then 48 + n else 87 + n)%N.

Definition value (c : ascii) : option N :=
  let n := N_of_ascii c in
  if ((48 <=? n) && (n <=? 57))%N then Some (n - 48)%N
  else if ((97 <=? n) && (n <=? 102))%N then Some (n - 87)%N
  else if ((65 <=? n) && (n <=? 70))%N then Some (n - 55)%N
  else None.

Definition is_digit (c : ascii) : bool :=
  match value c with Some _ => true | None => false end.

Definition byte_of_N (n : N) : byte :=
  match Byte.of_N n with Some b => b | None => x00 end.

(** Two lower-case digits per byte. *)
Fixpoint of_bytes (bs : list byte) : string :=
  match bs with
  | [] => EmptyString
  | b :: t =>
      let n := Byte.to_N b in
      String (digit (n / 16)) (String (digit (n mod 16)) (of_bytes t))
  end.

(** Node's [Buffer.from(s, 'hex')]: the digit pairs up to the first pair
    that is no hexadecimal number; a trailing single digit is dropped. *)
Fixpoint to_bytes (s : string) : list byte :=
  match s with
  | String h (String l t) =>
      match value h, value l with
      | Some a, Some b => byte_of_N (16 * a + b) :: to_bytes t
      | _, _ => []
      end
  | _ => []
  end.

Fixpoint all_digits (s : string) : bool :=
  match s with
  | EmptyString => true
  | String c t => is_digit c && all_digits t
  end.

End Hex.

(** *** ethers: the pure utilities, transcribed ([@ethersproject/bytes],
    [@ethersproject/strings]). *)
Module utils.

(** [hexlify(bytes)] *)
Definition hexlify (bs : list byte) : string := "0x" ++ Hex.of_bytes bs.

(** [isHexString(value)]: a string matching [/^0x[0-9A-Fa-f]*$/]. *)
Definition isHexString (value : Value) : bool :=
  match value with
  | VString (String "0" (String "x" t)) => Hex.all_digits t
  | _ => false
  end.

(** [isBytes(value)]: a [Uint8Array], or an array-like of integers in
    [0, 256). *)
Definition isBytes (value : Value) : bool :=
  match value with
  | VBytes _ => true
  | VArray vs =>
      forallb (fun v => match v with
                        | VNumber n => (0 <=? n)%Z && (n <? 256)%Z
                        | _ => false
                        end) vs
  | _ => false
  end.

(** [isBytesLike(value)] *)
Definition isBytesLike (value : Value) : bool :=
  match value with
  | VString s => isHexString value && Nat.even (String.length s)
  | _ => isBytes value
  end.

(** The UTF-8 encoding of one code unit below 256. *)
Definition utf8_unit (c : ascii) : list byte :=
  let n := N_of_ascii c in
  if (n <? 128)%N then [Hex.byte_of_N n]
  else [Hex.byte_of_N (192 + n / 64); Hex.byte_of_N (128 + n mod 64)].

Fixpoint utf8 (s : string) : list byte :=
  match s with
  | EmptyString => []
  | String c t => (utf8_unit c ++ utf8 t)%list
  end.

(** [toUtf8Bytes(str)]. Its loop runs over [str.length] and reads
    [str.charCodeAt(i)]; on a value that is no string the length is
    [undefined] (no iteration) or [charCodeAt] is missing. *)
Definition toUtf8Bytes (str : Value) : Result (list byte) :=
  match str with
  | VString s => Ok (utf8 s)
  | VBool _ | VNumber _ | VBigNumber _ => Ok []
  | VBytes [] | VArray [] => Ok []
  | VBytes _ | VArray _ => Throw TypeError
  end.

(** [formatBytes32String(text)]: the UTF-8 bytes, zero padded to 32 bytes;
    it throws when there is no room for the terminating zero, that is
    when the text has more than 31 bytes. *)
Definition formatBytes32String (text : Value) : Result string :=
  bytes <- toUtf8Bytes text ;;
  if Nat.ltb 31 (List.length bytes) then Throw (LibraryError LibEthers)
  else Ok (hexlify (firstn 32 (bytes ++ repeat x00 32)%list)).

End utils.

(* ================================================================== *)
(** ** The class [SchemaEncoder] *)

(** An instance holds one field, [schema]. *)
Record SchemaEncoder := { schema : list SchemaItemWithSignature.t }.

(** [l.entries()] *)
Definition entries {A} (l : list A) : list (nat * A) :=
  combine (seq 0 (List.length l)) l.

Section Class.

Context {ethers : Ethers} {multiformats : Multiformats}.

(** [private static getDefaultValueForTypeName(typeName)] *)
Definition getDefaultValueForTypeName (typeName : string) : Value :=
  if typeName =? "bool" then VBool false
  else if JS.includes typeName "uint" then VString "0"
  else if typeName =? "address" then VString ZERO_ADDRESS
  else VString "".

(** The body of the constructor's loop: the descriptor pushed for one
    parsed parameter. *)
Definition schemaItemOf (paramType : ParamType.t) : SchemaItemWithSignature.t :=
  let name := ParamType.name paramType in
  let components :=
    match ParamType.components paramType with Some cs => cs | None => [] end in
  let type := ParamType.type paramType in
  let signature := if truthy name then type ++ " " ++ text name else type in
  let signatureSuffix := if truthy name then " " ++ text name else "" in
  let typeName := type in
  let componentsType :=
    "(" ++ JS.join "," (map ParamType.type components) ++ ")" in
  let componentsFullType :=
    "(" ++ JS.join ","
             (map (fun c =>
                     if truthy (ParamType.name c)
                     then ParamType.type c ++ " " ++ text (ParamType.name c)
                     else ParamType.type c) components) ++ ")" in
  let '(type, signature, typeName) :=
    if type =? TUPLE_TYPE then
      (componentsType, componentsFullType ++ signatureSuffix, typeName)
    else if type =? TUPLE_ARRAY_TYPE then
      (componentsType ++ "[]", componentsFullType ++ "[]" ++ signatureSuffix,
       typeName)
    else if JS.includes type "[]" then
      (type, signature, JS.replace typeName "[]" "")
    else (type, signature, typeName) in
  let singleValue := getDefaultValueForTypeName typeName in
  {| SchemaItemWithSignature.name := name;
     SchemaItemWithSignature.type := type;
     SchemaItemWithSignature.signature := signature;
     SchemaItemWithSignature.value :=
       if JS.includes type "[]" then VArray [] else singleValue |}.

(** [constructor(schema)] *)
Definition constructor (schema : string) : Result SchemaEncoder :=
  let fixedSchema := JS.replace_all schema "ipfsHash" "bytes32" in
  inputs <- call LibEthers (FunctionFragment_from ("func(" ++ fixedSchema ++ ")")) ;;
  (* The following verification will throw in case of an incorrect schema *)
  _ <- call LibEthers (defaultAbiCoder_getDefaultValue inputs) ;;
  Ok {| schema := map schemaItemOf inputs |}.

(** [private signatures()] *)
Definition signatures (this : SchemaEncoder) : list string :=
  map SchemaItemWithSignature.signature (schema this).

(** [private static encodeBytes32Value(value)] *)
Definition encodeBytes32Value (value : Value) : Result Value :=
  try_catch
    (_ <- call LibEthers (defaultAbiCoder_encode ["bytes32"] [value]) ;;
     Ok value)
    (fun _ => s <- utils.formatBytes32String value ;; Ok (VString s)).

(** [private static decodeIpfsValue(val)] *)
Definition decodeIpfsValue (val : Value) : Result Value :=
  if utils.isBytesLike val then encodeBytes32Value val
  else
    try_catch
      (decodedHash <- call LibMultiformats (CID_parse val) ;;
       encoded <- call LibEthers
                    (defaultAbiCoder_encode ["bytes32"]
                       [VBytes (MultihashDigest.digest (CID_multihash decodedHash))]) ;;
       Ok (VString encoded))
      (fun _ => encodeBytes32Value val).

(** The test that guards [throw new Error(`Incompatible param type`)]. *)
Definition incompatible_type
    (sanitizedType : string) (schemaItem : SchemaItemWithSignature.t) : bool :=
  negb (sanitizedType =? SchemaItemWithSignature.type schemaItem) &&
  negb (sanitizedType =? SchemaItemWithSignature.signature schemaItem) &&
  negb ((sanitizedType =? "ipfsHash") &&
        (SchemaItemWithSignature.type schemaItem =? "bytes32")).

(** [schemaItem.type === 'bytes32' && schemaItem.name === 'ipfsHash'] *)
Definition ipfsHash_field (schemaItem : SchemaItemWithSignature.t) : bool :=
  (SchemaItemWithSignature.type schemaItem =? "bytes32") &&
  Name_eqb (SchemaItemWithSignature.name schemaItem) (Some "ipfsHash").

(** The expression pushed on [data]. *)
Definition dataOf
    (schemaItem : SchemaItemWithSignature.t) (value : Value) : Result Value :=
  if ipfsHash_field schemaItem
  then decodeIpfsValue value
  else if (SchemaItemWithSignature.type schemaItem =? "bytes32") &&
          Val.is_string value && negb (utils.isBytesLike value)
  then s <- utils.formatBytes32String value ;; Ok (VString s)
  else Ok value.

(** One turn of the loop of [encodeData]. *)
Definition encodeItem
    (schemaItem : SchemaItemWithSignature.t) (param : SchemaItem.t Value)
  : Result Value :=
  let type := SchemaItem.type param in
  let name := SchemaItem.name param in
  let value := SchemaItem.value param in
  let sanitizedType := JS.remove_whitespace type in
  if incompatible_type sanitizedType schemaItem then
    Throw (IncompatibleParamType sanitizedType)
  else if negb (Name_eqb name (SchemaItemWithSignature.name schemaItem)) then
    Throw (IncompatibleParamName (text name))
  else dataOf schemaItem value.

(** The loop of [encodeData] over [this.schema.entries()], reading
    [params[index]]; a missing entry fails the destructuring. *)
Fixpoint encodeItems
    (schema : list SchemaItemWithSignature.t) (params : list (SchemaItem.t Value))
  : Result (list Value) :=
  match schema with
  | [] => Ok []
  | schemaItem :: schema' =>
      match params with
      | [] => Throw TypeError
      | param :: params' =>
          v <- encodeItem schemaItem param ;;
          data <- encodeItems schema' params' ;;
          Ok (v :: data)
      end
  end.

(** [public encodeData(params)] *)
Definition encodeData (this : SchemaEncoder) (params : list (SchemaItem.t Value))
  : Result string :=
  if negb (Nat.eqb (List.length params) (List.length (schema this))) then
    Throw InvalidNumberOfValues
  else
    data <- encodeItems (schema this) params ;;
    call LibEthers (defaultAbiCoder_encode (signatures this) data).

(** The inner loop of [decodeData]: [rawValues] paired by position with
    [components]. *)
Fixpoint nameValues_from
    (k : nat) (components : list ParamType.t) (rawValues : list Value)
  : Result (list (SchemaItem.t Value)) :=
  match rawValues with
  | [] => Ok []
  | v :: rest =>
      match nth_error components k with
      | None => Throw TypeError
      | Some component =>
          namedValue <- nameValues_from (S k) components rest ;;
          Ok (SchemaItem.Build (ParamType.name component)
                (ParamType.type component) v :: namedValue)
      end
  end.

(** [val.filter((v) => typeof v !== 'object')] followed by the inner loop. *)
Definition namedValueOf (components : list ParamType.t) (val : Value)
  : Result (list (SchemaItem.t Value)) :=
  match Val.elements val with
  | None => Throw TypeError
  | Some vs => nameValues_from 0 components (filter Val.not_object vs)
  end.

(** The new [value] of one field. *)
Definition wrap
    (s : SchemaItemWithSignature.t) (components : option (list ParamType.t))
    (value : Value) : Result (SchemaItem.t DecodedValue) :=
  let name := SchemaItemWithSignature.name s in
  let type := SchemaItemWithSignature.type s in
  match components with
  | Some components =>
      if Val.length_positive value then
        if Val.first_isArray value then
          match Val.elements value with
          | None => Throw TypeError
          | Some vals =>
              namedValues <- mapM (namedValueOf components) vals ;;
              Ok (SchemaItem.Build name type (NamedList namedValues))
          end
        else
          namedValue <- namedValueOf components value ;;
          Ok (SchemaItem.Build name type (Named namedValue))
      else Ok (SchemaItem.Build name type (Raw value))
  | None => Ok (SchemaItem.Build name type (Raw value))
  end.

(** The callback of [this.schema.map] in [decodeData]. *)
Definition decodeItem (values : list Value)
    (entry : nat * SchemaItemWithSignature.t) : Result SchemaDecodedItem.t :=
  let '(i, s) := entry in
  inputs <- call LibEthers
              (FunctionFragment_from
                 ("func(" ++ SchemaItemWithSignature.signature s ++ ")")) ;;
  match inputs with
  | [input] =>
      match nth_error values i with
      | None => Throw TypeError
      | Some value =>
          value' <- wrap s (ParamType.components input) value ;;
          Ok {| SchemaDecodedItem.name := SchemaItemWithSignature.name s;
                SchemaDecodedItem.type := SchemaItemWithSignature.type s;
                SchemaDecodedItem.signature := SchemaItemWithSignature.signature s;
                SchemaDecodedItem.value := value' |}
      end
  | _ => Throw UnexpectedInputs
  end.

(** [public decodeData(data)] *)
Definition decodeData (this : SchemaEncoder) (data : string)
  : Result (list SchemaDecodedItem.t) :=
  values <- call LibEthers (defaultAbiCoder_decode (signatures this) data) ;;
  mapM (decodeItem values) (entries (schema this)).

(** [public isEncodedDataValid(data)] *)
Definition isEncodedDataValid (this : SchemaEncoder) (data : string)
  : Result bool :=
  try_catch (_ <- decodeData this data ;; Ok true) (fun _ => Ok false).

(** [public static isCID(cid)] *)
Definition isCID (cid : string) : Result bool :=
  try_catch
    (_ <- call LibMultiformats (CID_parse (VString cid)) ;; Ok true)
    (fun _ => Ok false).

(** [public static encodeQmHash(hash)] *)
Definition encodeQmHash (hash : string) : Result string :=
  a <- call LibMultiformats (CID_parse (VString hash)) ;;
  call LibEthers
    (defaultAbiCoder_encode ["bytes32"]
       [VBytes (MultihashDigest.digest (CID_multihash a))]).

(** [public static decodeQmHash(bytes32)] *)
Definition decodeQmHash (bytes32 : string) : string :=
  let digest := Hex.to_bytes (JS.slice 2 bytes32) in
  let dec :=
    {| MultihashDigest.digest := digest;
       MultihashDigest.code := 18;
       MultihashDigest.size := 32;
       (* Uint8Array.from([18, 32, ...digest]) *)
       MultihashDigest.bytes := x12 :: x20 :: digest |} in
  let dCID := CID_createV0 dec in
  CID_toString dCID.

End Class.

(* ================================================================== *)
(** ** A reference implementation of the libraries

    An executable implementation of the two interfaces, after ethers v5 and
    multiformats, on which the encoder is run on concrete inputs. It covers
    the fragment grammar, the ABI coders of integers, booleans, fixed and
    dynamic bytes, strings, tuples and dynamic arrays, and version 0 CIDs.
    What lies outside it rejects: coding an address (its text form needs
    Keccak-256), arrays of fixed length, text beyond code unit 255, CIDv1. *)

Module Ref.

(** *** The parameter grammar ([fragments.ts]) *)

(** [verifyType]: [uint] and [int] are short for their 256 bit forms. *)
Definition not_digit_1_9 (s : string) : bool :=
  match s with
  | EmptyString => true
  | String c _ => negb (Nat.leb 49 (nat_of_ascii c) && Nat.leb (nat_of_ascii c) 57)
  end.

Definition verifyType (type : string) : string :=
  if prefix "uint" type && not_digit_1_9 (JS.slice 4 type)
  then "uint256" ++ JS.slice 4 type
  else if prefix "int" type && not_digit_1_9 (JS.slice 3 type)
  then "int256" ++ JS.slice 3 type
  else type.

Definition ModifiersBytes (name : string) : bool :=
  (name =? "calldata") || (name =? "memory") || (name =? "storage").
Definition ModifiersNest (name : string) : bool :=
  (name =? "calldata") || (name =? "memory").

(** [checkModifier]: [Some true] when the name is a data location to be
    dropped, [None] when it throws. *)
Definition checkModifier (type name : string) : option bool :=
  if ((type =? "bytes") || (type =? "string")) && ModifiersBytes name then Some true
  else if (type =? "address") && ModifiersNest name then Some true
  else if (JS.includes type "[" || (type =? "tuple")) && ModifiersNest name then Some true
  else if ModifiersBytes name || (name =? "payable") then None
  else Some false.

(** The [state] of a parse node; a deleted flag reads as [false]. *)
Record State := {
  allowType : bool; allowName : bool; allowParams : bool;
  allowArray : bool; readArray : bool }.

(** A node under construction; [ncomponents] holds the children that are
    already closed. *)
Record ParseNode := {
  ntype : string; nname : string;
  ncomponents : option (list ParamType.t);
  nstate : State }.

Definition newNode : ParseNode :=
  {| ntype := ""; nname := ""; ncomponents := None;
     nstate := {| allowType := true; allowName := false; allowParams := false;
                  allowArray := false; readArray := false |} |}.

Definition push_char (s : string) (c : ascii) : string := s ++ String c "".

(** What the parser does when a node is closed (by [)], by [,] or at the
    end), followed by [ParamType.fromObject]. *)
Definition close (node : ParseNode) : option ParamType.t :=
  if nname node =? "indexed" then None
  else
    match checkModifier (ntype node) (nname node) with
    | None => None
    | Some drop =>
        let name := if drop then "" else nname node in
        Some (ParamType.Build
                (if name =? "" then None else Some name)
                (verifyType (ntype node))
                (ncomponents node))
    end.

Definition with_state (node : ParseNode) (st : State) : ParseNode :=
  {| ntype := ntype node; nname := nname node;
     ncomponents := ncomponents node; nstate := st |}.

(** One character of [parseParamType]; [stack] holds the open parents, the
    innermost first. *)
Definition step (c : ascii) (cur : ParseNode * list ParseNode)
  : option (ParseNode * list ParseNode) :=
  let '(node, stack) := cur in
  let st := nstate node in
  if Ascii.eqb c "(" then
    if allowType st && (ntype node =? "") || allowParams st then
      let type := if allowType st && (ntype node =? "") then "tuple" else ntype node in
      Some (newNode,
            {| ntype := verifyType type; nname := nname node;
               ncomponents := Some [];
               nstate := {| allowType := false; allowName := allowName st;
                            allowParams := allowParams st;
                            allowArray := allowArray st;
                            readArray := readArray st |} |} :: stack)
    else None
  else if Ascii.eqb c ")" then
    match close node, stack with
    | Some child, parent :: stack' =>
        let pst := nstate parent in
        Some ({| ntype := ntype parent; nname := nname parent;
                 ncomponents :=
                   Some (match ncomponents parent with
                         | Some cs => cs ++ [child]
                         | None => [child]
                         end)%list;
                 nstate := {| allowType := allowType pst; allowName := true;
                              allowParams := false; allowArray := true;
                              readArray := readArray pst |} |},
              stack')
    | _, _ => None
    end
  else if Ascii.eqb c "," then
    match close node, stack with
    | Some child, parent :: stack' =>
        Some (newNode,
              {| ntype := ntype parent; nname := nname parent;
                 ncomponents :=
                   Some (match ncomponents parent with
                         | Some cs => cs ++ [child]
                         | None => [child]
                         end)%list;
                 nstate := nstate parent |} :: stack')
    | _, _ => None
    end
  else if Ascii.eqb c " " then
    (* the type is done *)
    let node1 :=
      if allowType st && negb (ntype node =? "") then
        {| ntype := verifyType (ntype node); nname := nname node;
           ncomponents := ncomponents node;
           nstate := {| allowType := false; allowName := true;
                        allowParams := true; allowArray := allowArray st;
                        readArray := readArray st |} |}
      else node in
    let st1 := nstate node1 in
    (* the name is done *)
    if allowName st1 && negb (nname node1 =? "") then
      if nname node1 =? "indexed" then None
      else
        match checkModifier (ntype node1) (nname node1) with
        | None => None
        | Some true =>
            Some ({| ntype := ntype node1; nname := "";
                     ncomponents := ncomponents node1; nstate := st1 |}, stack)
        | Some false =>
            Some (with_state node1
                    {| allowType := allowType st1; allowName := false;
                       allowParams := allowParams st1;
                       allowArray := allowArray st1;
                       readArray := readArray st1 |}, stack)
        end
    else Some (node1, stack)
  else if Ascii.eqb c "[" then
    if allowArray st then
      Some ({| ntype := push_char (ntype node) c; nname := nname node;
               ncomponents := ncomponents node;
               nstate := {| allowType := allowType st; allowName := false;
                            allowParams := allowParams st; allowArray := false;
                            readArray := true |} |}, stack)
    else None
  else if Ascii.eqb c "]" then
    if readArray st then
      Some ({| ntype := push_char (ntype node) c; nname := nname node;
               ncomponents := ncomponents node;
               nstate := {| allowType := allowType st; allowName := true;
                            allowParams := allowParams st; allowArray := true;
                            readArray := false |} |}, stack)
    else None
  else if allowType st then
    Some ({| ntype := push_char (ntype node) c; nname := nname node;
             ncomponents := ncomponents node;
             nstate := {| allowType := true; allowName := allowName st;
                          allowParams := true; allowArray := true;
                          readArray := readArray st |} |}, stack)
  else if allowName st then
    Some ({| ntype := ntype node; nname := push_char (nname node) c;
             ncomponents := ncomponents node;
             nstate := {| allowType := false; allowName := true;
                          allowParams := allowParams st; allowArray := false;
                          readArray := readArray st |} |}, stack)
  else if readArray st then
    Some ({| ntype := push_char (ntype node) c; nname := nname node;
             ncomponents := ncomponents node; nstate := st |}, stack)
  else None.

Fixpoint run (param : string) (cur : ParseNode * list ParseNode)
  : option (ParseNode * list ParseNode) :=
  match param with
  | EmptyString => Some cur
  | String c rest =>
      match step (if JS.is_whitespace c then " "%char else c) cur with
      | Some cur' => run rest cur'
      | None => None
      end
  end.

(** [ParamType.fromString(param)] *)
Definition ParamType_fromString (param : string) : option ParamType.t :=
  match run param (newNode, []) with
  | Some (node, []) => close node
  | _ => None
  end.

(** [value.trim()] *)
Fixpoint trim_start (s : string) : string :=
  match s with
  | String c t => if JS.is_whitespace c then trim_start t else s
  | EmptyString => EmptyString
  end.

Definition rev_string (s : string) : string :=
  string_of_list_ascii (rev (list_ascii_of_string s)).

Definition trim (s : string) : string :=
  rev_string (trim_start (rev_string (trim_start s))).

(** [splitNesting(value)]: the pieces between the commas outside every
    parenthesis. [accum] is kept reversed. *)
Fixpoint splitNesting_from (value : string) (accum : string) (depth : nat)
  : option (list string) :=
  match value with
  | EmptyString =>
      Some (if accum =? "" then [] else [rev_string accum])
  | String c rest =>
      if Ascii.eqb c "," && Nat.eqb depth 0 then
        option_map (cons (rev_string accum)) (splitNesting_from rest "" 0)
      else if Ascii.eqb c "(" then
        splitNesting_from rest (String c accum) (S depth)
      else if Ascii.eqb c ")" then
        match depth with
        | O => None
        | S d => splitNesting_from rest (String c accum) d
        end
      else splitNesting_from rest (String c accum) depth
  end.

Definition splitNesting (value : string) : option (list string) :=
  splitNesting_from (trim value) "" 0.

Fixpoint map_option {A B} (f : A -> option B) (l : list A) : option (list B) :=
  match l with
  | [] => Some []
  | x :: t =>
      match f x, map_option f t with
      | Some y, Some ys => Some (y :: ys)
      | _, _ => None
      end
  end.

(** [parseParams(value, false)] *)
Definition parseParams (value : string) : option (list ParamType.t) :=
  match splitNesting value with
  | Some params => map_option ParamType_fromString params
  | None => None
  end.

(** [FunctionFragment.from(text).inputs] for a text [func(...)]: the
    parameters are read from what stands between [func(] and the closing
    [)]; the pattern of the fragment grammar does not reach across a line
    break. A gas note or a [returns] list is not read here. *)
Definition no_line_break (s : string) : bool :=
  negb (JS.includes s (String (ascii_of_nat 10) "")) &&
  negb (JS.includes s (String (ascii_of_nat 13) "")).

Definition FunctionFragment_from (text : string) : option (list ParamType.t) :=
  if prefix "func(" text && no_line_break text then
    match rev_string (JS.slice 5 text) with
    | String ")" body => parseParams (rev_string body)
    | _ => None
    end
  else None.

(** *** The ABI coder ([abi-coder.ts], [coders/*.ts]) *)

(** The types this implementation has a coder for. *)
Inductive AbiType :=
| TAddress
| TBool
| TString
| TBytes
| TNumber (bits : Z) (signed : bool)
| TFixedBytes (size : nat)
| TTuple (ts : list AbiType)
| TArray (t : AbiType).                  (* dynamic length *)

Definition bind_option {A B} (m : option A) (k : A -> option B) : option B :=
  match m with Some a => k a | None => None end.

Notation "x <-? m ;; k" := (bind_option m (fun x => k))
  (at level 61, m at next level, right associativity).

(** A decimal numeral, as [BigNumber.from] reads one. *)
Fixpoint decimal_from (acc : Z) (s : string) : option Z :=
  match s with
  | EmptyString => Some acc
  | String c t =>
      let n := Z.of_nat (nat_of_ascii c) in
      if ((48 <=? n) && (n <=? 57))%Z then decimal_from (acc * 10 + (n - 48)) t
      else None
  end.

Definition decimal (s : string) : option Z :=
  match s with
  | EmptyString => None
  | _ => decimal_from 0 s
  end.

(** Splits [T[][]...] into [T] and the number of its [[]] marks; a type
    with a fixed length mark has no coder here. *)
Fixpoint strip_arrays (rev_type : list ascii) (n : nat) : list ascii * nat :=
  match rev_type with
  | "]"%char :: "["%char :: rest => strip_arrays rest (S n)
  | _ => (rev_type, n)
  end.

Definition number_type (size : string) (signed : bool) : option AbiType :=
  bits <-? decimal (if size =? "" then "256" else size) ;;
  if ((0 <? bits) && (bits <=? 256) && (bits mod 8 =? 0))%Z
  then Some (TNumber bits signed) else None.

Definition scalar_type (base : string) : option AbiType :=
  if base =? "address" then Some TAddress
  else if base =? "bool" then Some TBool
  else if base =? "string" then Some TString
  else if base =? "bytes" then Some TBytes
  else if base =? "tuple" then Some (TTuple [])
  else if prefix "uint" base then number_type (JS.slice 4 base) false
  else if prefix "int" base then number_type (JS.slice 3 base) true
  else if prefix "bytes" base then
    size <-? decimal (JS.slice 5 base) ;;
    if ((0 <? size) && (size <=? 32))%Z
    then Some (TFixedBytes (Z.to_nat size)) else None
  else None.

(** [_getCoder(param)]: an array coder for every [[]] mark around the
    coder of the base type, which is a tuple coder as soon as the parameter
    has components. *)
Fixpoint coder_of (param : ParamType.t) : option AbiType :=
  let '(rev_base, marks) :=
    strip_arrays (rev (list_ascii_of_string (ParamType.type param))) 0 in
  base <-?
    match ParamType.components param with
    | Some components =>
        option_map TTuple
          ((fix all (cs : list ParamType.t) : option (list AbiType) :=
              match cs with
              | [] => Some []
              | c :: cs' =>
                  t <-? coder_of c ;; ts <-? all cs' ;; Some (t :: ts)
              end) components)
    | None => scalar_type (string_of_list_ascii (rev rev_base))
    end ;;
  Some (Nat.iter marks TArray base).

Fixpoint dynamic (t : AbiType) : bool :=
  match t with
  | TArray _ | TString | TBytes => true
  | TTuple ts => existsb dynamic ts
  | _ => false
  end.

Definition Z_of_byte (b : byte) : Z := Z.of_N (Byte.to_N b).
Definition byte_of_Z (z : Z) : byte := Hex.byte_of_N (Z.to_N (z mod 256)).

(** The [n] low bytes of [z], most significant first. *)
Fixpoint be_bytes (n : nat) (z : Z) : list byte :=
  match n with
  | O => []
  | S k => (be_bytes k (z / 256) ++ [byte_of_Z z])%list
  end.

Definition be_value (bs : list byte) : Z :=
  fold_left (fun acc b => acc * 256 + Z_of_byte b)%Z bs 0%Z.

Definition word (z : Z) : list byte := be_bytes 32 z.

Definition readValue (data : list byte) : option Z :=
  if Nat.ltb (List.length data) 32 then None
  else Some (be_value (firstn 32 data)).

(** The shortest big-endian form, one byte at least. *)
Definition minimal_bytes (z : Z) : list byte :=
  be_bytes (S (Z.to_nat (Z.log2 z / 8))) z.

Definition bytes_of_array (vs : list Value) : list byte :=
  map (fun v => match v with VNumber n => byte_of_Z n | _ => x00 end) vs.

(** [arrayify(value)] *)
Definition arrayify (value : Value) : option (list byte) :=
  match value with
  | VNumber n =>
      if ((0 <=? n) && (n <? 2 ^ 53))%Z then Some (minimal_bytes n) else None
  | VBigNumber n => if (0 <=? n)%Z then Some (minimal_bytes n) else None
  | VString str =>
      if utils.isHexString value && Nat.even (String.length str)
      then Some (Hex.to_bytes (JS.slice 2 str)) else None
  | VBytes bs => Some bs
  | VArray vs => if utils.isBytes value then Some (bytes_of_array vs) else None
  | VBool _ => None
  end.

(** [BigNumber.from(value)], for numbers, [BigNumber]s and decimal text. *)
Definition BigNumber_from (value : Value) : option Z :=
  match value with
  | VNumber n | VBigNumber n => Some n
  | VString str => decimal str
  | _ => None
  end.

(** [value ? 1 : 0] *)
Definition truthy_value (value : Value) : bool :=
  match value with
  | VBool b => b
  | VNumber n => negb (n =? 0)%Z
  | VString str => negb (str =? "")
  | _ => true
  end.

(** [writer.writeBytes(value)]: padded with zeros to whole words. *)
Definition writeBytes (value : list byte) : list byte :=
  (value ++ repeat x00 ((32 - List.length value mod 32) mod 32))%list.

(** The dynamic bytes coder: the length, then the bytes. *)
Definition encode_bytes (value : list byte) : list byte :=
  (word (Z.of_nat (List.length value)) ++ writeBytes value)%list.

Definition decode_bytes (data : list byte) : option (list byte * nat) :=
  len <-? readValue data ;;
  let aligned := (32 * ((len + 31) / 32))%Z in
  if (Z.of_nat (List.length data) - 32 <? aligned)%Z then None
  else Some (firstn (Z.to_nat len) (skipn 32 data), 32 + Z.to_nat aligned).

Definition ascii_of_Z (z : Z) : ascii := ascii_of_N (Z.to_N z).

(** [toUtf8String(bytes)] for text within the first 256 code points. *)
Fixpoint toUtf8String (fuel : nat) (bs : list byte) : option string :=
  match fuel with
  | O => None
  | S fuel' =>
      match bs with
      | [] => Some EmptyString
      | b :: rest =>
          let n := Z_of_byte b in
          if (n <? 128)%Z then
            option_map (String (ascii_of_Z n)) (toUtf8String fuel' rest)
          else
            match rest with
            | c :: rest' =>
                let m := Z_of_byte c in
                if ((194 <=? n) && (n <=? 195) && (128 <=? m) && (m <? 192))%Z
                then option_map (String (ascii_of_Z ((n - 192) * 64 + (m - 128))))
                       (toUtf8String fuel' rest')
                else None
            | [] => None
            end
      end
  end.

(** [pack]: the static parts in order, an offset in place of every dynamic
    part, and the dynamic parts behind. Each part comes with whether its
    coder is dynamic. *)
Fixpoint head_size (parts : list (bool * list byte)) : nat :=
  match parts with
  | [] => 0
  | (true, _) :: rest => 32 + head_size rest
  | (false, e) :: rest => List.length e + head_size rest
  end.

Fixpoint pack_from (base : nat) (tail : nat) (parts : list (bool * list byte))
  : list byte * list byte :=
  match parts with
  | [] => ([], [])
  | (true, e) :: rest =>
      let '(h, t) := pack_from base (tail + List.length e) rest in
      (word (Z.of_nat (base + tail)) ++ h, e ++ t)%list
  | (false, e) :: rest =>
      let '(h, t) := pack_from base tail rest in
      ((e ++ h)%list, t)
  end.

Definition pack (parts : list (bool * list byte)) : list byte :=
  let '(h, t) := pack_from (head_size parts) 0 parts in (h ++ t)%list.

(** [coder.encode(writer, value)] *)
Fixpoint encode (t : AbiType) (value : Value) {struct t} : option (list byte) :=
  match t with
  | TAddress => None
  | TNumber bits signed =>
      v <-? BigNumber_from value ;;
      if signed then
        if ((- 2 ^ (bits - 1) <=? v) && (v <? 2 ^ (bits - 1)))%Z
        then Some (word (v mod 2 ^ 256)) else None
      else
        if ((0 <=? v) && (v <? 2 ^ bits))%Z then Some (word v) else None
  | TBool => Some (word (if truthy_value value then 1 else 0))
  | TString =>
      match utils.toUtf8Bytes value with
      | Ok bytes => Some (encode_bytes bytes)
      | Throw _ => None
      end
  | TBytes => option_map encode_bytes (arrayify value)
  | TFixedBytes size =>
      data <-? arrayify value ;;
      if Nat.eqb (List.length data) size
      then Some (data ++ repeat x00 (32 - size))%list else None
  | TTuple ts =>
      match value with
      | VArray vs =>
          parts <-?
            (fix all (ts : list AbiType) (vs : list Value)
               : option (list (bool * list byte)) :=
               match ts, vs with
               | [], [] => Some []
               | t' :: ts', v :: vs' =>
                   e <-? encode t' v ;; r <-? all ts' vs' ;;
                   Some ((dynamic t', e) :: r)
               | _, _ => None
               end) ts vs ;;
          Some (pack parts)
      | _ => None
      end
  | TArray t' =>
      match value with
      | VArray vs =>
          parts <-?
            (fix all (vs : list Value) : option (list (bool * list byte)) :=
               match vs with
               | [] => Some []
               | v :: vs' =>
                   e <-? encode t' v ;; r <-? all vs' ;;
                   Some ((dynamic t', e) :: r)
               end) vs ;;
          Some (word (Z.of_nat (List.length vs)) ++ pack parts)%list
      | _ => None
      end
  end.

(** [coder.decode(reader)]: the value and the number of bytes read. A
    dynamic part is read where its offset, counted from the start of the
    enclosing tuple or array, points. *)
Fixpoint decode (t : AbiType) (data : list byte) {struct t}
  : option (Value * nat) :=
  match t with
  | TAddress => None
  | TNumber bits signed =>
      w <-? readValue data ;;
      let m := (w mod 2 ^ bits)%Z in
      let v := if signed && (2 ^ (bits - 1) <=? m)%Z then (m - 2 ^ bits)%Z else m in
      Some (if (bits <=? 48)%Z then VNumber v else VBigNumber v, 32)
  | TString =>
      r <-? decode_bytes data ;;
      str <-? toUtf8String (S (List.length (fst r))) (fst r) ;;
      Some (VString str, snd r)
  | TBytes =>
      r <-? decode_bytes data ;;
      Some (VString (utils.hexlify (fst r)), snd r)
  | TBool =>
      w <-? readValue data ;;
      Some (VBool (negb (w =? 0)%Z), 32)
  | TFixedBytes size =>
      if Nat.ltb (List.length data) 32 then None
      else Some (VString (utils.hexlify (firstn size data)), 32)
  | TTuple ts =>
      r <-?
        (fix unpack (ts : list AbiType) (pos : nat) : option (list Value * nat) :=
           match ts with
           | [] => Some ([], pos)
           | t' :: ts' =>
               if dynamic t' then
                 offset <-? readValue (skipn pos data) ;;
                 if (Z.of_nat (List.length data) <? offset)%Z then None else
                 r <-? decode t' (skipn (Z.to_nat offset) data) ;;
                 rest <-? unpack ts' (pos + 32) ;;
                 Some (fst r :: fst rest, snd rest)
               else
                 r <-? decode t' (skipn pos data) ;;
                 rest <-? unpack ts' (pos + snd r) ;;
                 Some (fst r :: fst rest, snd rest)
           end) ts 0 ;;
      Some (VArray (fst r), snd r)
  | TArray t' =>
      count <-? readValue data ;;
      if (Z.of_nat (List.length data) <? count * 32)%Z then None else
      let body := skipn 32 data in
      r <-?
        (fix unpack (n : nat) (pos : nat) : option (list Value * nat) :=
           match n with
           | O => Some ([], pos)
           | S n' =>
               if dynamic t' then
                 offset <-? readValue (skipn pos body) ;;
                 if (Z.of_nat (List.length body) <? offset)%Z then None else
                 r <-? decode t' (skipn (Z.to_nat offset) body) ;;
                 rest <-? unpack n' (pos + 32) ;;
                 Some (fst r :: fst rest, snd rest)
               else
                 r <-? decode t' (skipn pos body) ;;
                 rest <-? unpack n' (pos + snd r) ;;
                 Some (fst r :: fst rest, snd rest)
           end) (Z.to_nat count) 0 ;;
      Some (VArray (fst r), 32 + snd r)
  end.

(** [ParamType.from(type)] on a type given as text. *)
Definition coders_of (types : list string) : option (list AbiType) :=
  map_option (fun type => p <-? ParamType_fromString type ;; coder_of p) types.

(** [defaultAbiCoder.getDefaultValue(types)] returns when every type has
    a coder. *)
Definition getDefaultValue (types : list ParamType.t) : option unit :=
  _ <-? map_option coder_of types ;; Some tt.

(** [defaultAbiCoder.encode(types, values)] *)
Definition abi_encode (types : list string) (values : list Value)
  : option string :=
  ts <-? coders_of types ;;
  data <-? encode (TTuple ts) (VArray values) ;;
  Some (utils.hexlify data).

(** [defaultAbiCoder.decode(types, data)] *)
Definition abi_decode (types : list string) (data : string)
  : option (list Value) :=
  ts <-? coders_of types ;;
  bytes <-? arrayify (VString data) ;;
  r <-? decode (TTuple ts) bytes ;;
  match fst r with
  | VArray values => Some values
  | _ => None
  end.

Definition ethers : Ethers :=
  Build_Ethers FunctionFragment_from getDefaultValue abi_encode abi_decode.

(** *** CIDs ([multiformats]: [bases/base58], [cid]) *)

Definition base58_alphabet :=
  "123456789ABCDEFGHJKLMNPQRSTUVWXYZabcdefghijkmnopqrstuvwxyz".

Definition base58_value (c : ascii) : option Z :=
  option_map Z.of_nat (index 0 (String c "") base58_alphabet).

Definition base58_digit (n : Z) : ascii :=
  match get (Z.to_nat n) base58_alphabet with
  | Some c => c
  | None => "1"%char
  end.

Fixpoint base58_number (acc : Z) (s : string) : option Z :=
  match s with
  | EmptyString => Some acc
  | String c t =>
      d <-? base58_value c ;; base58_number (acc * 58 + d) t
  end.

Fixpoint base58_digits (fuel : nat) (n : Z) (acc : string) : string :=
  match fuel with
  | O => acc
  | S fuel' =>
      if (n =? 0)%Z then acc
      else base58_digits fuel' (n / 58) (String (base58_digit (n mod 58)) acc)
  end.

Fixpoint leading_zero_bytes (bs : list byte) : nat :=
  match bs with
  | x00 :: t => S (leading_zero_bytes t)
  | _ => 0
  end.

Fixpoint leading_ones (s : string) : nat :=
  match s with
  | String "1" t => S (leading_ones t)
  | _ => 0
  end.

Fixpoint repeat_char (c : ascii) (n : nat) : string :=
  match n with
  | O => EmptyString
  | S k => String c (repeat_char c k)
  end.

(** Every leading zero byte is a leading [1]; the rest is the number the
    bytes spell, in base 58. *)
Definition base58_encode (bs : list byte) : string :=
  repeat_char "1" (leading_zero_bytes bs) ++
  base58_digits (2 * List.length bs) (be_value bs) "".

Definition base58_decode (s : string) : option (list byte) :=
  n <-? base58_number 0 s ;;
  Some (repeat x00 (leading_ones s) ++
        (if (n =? 0)%Z then [] else minimal_bytes n))%list.

(** A CID: version, content codec, multihash and binary form. *)
Record CIDv := {
  version : Z; code : Z; multihash : MultihashDigest.t; bytes : list byte }.

Definition DAG_PB_CODE : Z := 112.

(** [CID.createV0(digest)] *)
Definition createV0 (digest : MultihashDigest.t) : CIDv :=
  {| version := 0; code := DAG_PB_CODE; multihash := digest;
     bytes := MultihashDigest.bytes digest |}.

(** [CID.parse(source)], version 0: the text starts with [Q], is base 58
    and spells a multihash (code 18, length, digest of that length). *)
Definition parse (source : Value) : option CIDv :=
  match source with
  | VString (String "Q" _ as str) =>
      bs <-? base58_decode str ;;
      match bs with
      | x12 :: len :: digest =>
          if Nat.eqb (List.length digest) (N.to_nat (Byte.to_N len)) &&
             N.ltb (Byte.to_N len) 128
          then Some (createV0
                       {| MultihashDigest.digest := digest;
                          MultihashDigest.code := 18;
                          MultihashDigest.size := Z_of_byte len;
                          MultihashDigest.bytes := bs |})
          else None
      | _ => None
      end
  | _ => None
  end.

(** [cid.toString()] for version 0. *)
Definition toString (cid : CIDv) : string := base58_encode (bytes cid).

Definition multiformats : Multiformats :=
  Build_Multiformats CIDv parse multihash createV0 toString.

End Ref.

(* ================================================================== *)
(** * Properties *)

(** ** The error monad *)

Lemma bind_Ok {A B} (m : Result A) (k : A -> Result B) (b : B) :
  bind m k = Ok b -> exists a, m = Ok a /\ k a = Ok b.
Proof. destruct m as [a|e]; simpl; [eauto | discriminate]. Qed.

Lemma call_Ok {A} lib (r : option A) (a : A) :
  call lib r = Ok a -> r = Some a.
Proof. destruct r; simpl; congruence. Qed.

Lemma returns_or_throws {A} (m : Result A) : returns m \/ throws m.
Proof. destruct m; [left | right]; eexists; reflexivity. Qed.

Lemma mapM_length {A B} (f : A -> Result B) (l : list A) (r : list B) :
  mapM f l = Ok r -> List.length r = List.length l.
Proof.
  revert r; induction l as [|x l IH]; simpl; intros r H.
  - injection H as <-; reflexivity.
  - apply bind_Ok in H as (y & _ & H).
    apply bind_Ok in H as (ys & Hys & H).
    injection H as <-; simpl; f_equal; auto.
Qed.

Lemma mapM_nth {A B} (f : A -> Result B) (l : list A) (r : list B) :
  mapM f l = Ok r ->
  forall i x, nth_error l i = Some x ->
  exists y, nth_error r i = Some y /\ f x = Ok y.
Proof.
  revert r; induction l as [|x0 l IH]; simpl; intros r H i x Hi.
  - destruct i; discriminate.
  - apply bind_Ok in H as (y & Hy & H).
    apply bind_Ok in H as (ys & Hys & H).
    injection H as <-.
    destruct i as [|i]; simpl in *.
    + injection Hi as <-; eauto.
    + eapply IH; eauto.
Qed.

Lemma mapM_returns {A B} (f : A -> Result B) (l : list A) :
  Forall (fun x => returns (f x)) l -> returns (mapM f l).
Proof.
  induction 1 as [|x l [y Hy] _ [ys Hys]]; simpl.
  - eexists; reflexivity.
  - rewrite Hy, Hys; eexists; reflexivity.
Qed.

(** ** The field count *)

Section FieldCount.

Context {ethers : Ethers} {multiformats : Multiformats}.

(** C7. With a list of another length than the schema, [encodeData] throws
    the field-count error; that is its whole outcome, whatever the fields
    hold and whatever the libraries would answer, so no field has been
    validated or transformed, the coder has not produced anything, and no
    bytes come back. *)
Theorem encodeData_field_count
    (this : SchemaEncoder) (params : list (SchemaItem.t Value)) :
  List.length params <> List.length (schema this) ->
  encodeData this params = Throw InvalidNumberOfValues /\
  ~ returns (encodeData this params).
Proof.
  intros Hlen.
  assert (H : encodeData this params = Throw InvalidNumberOfValues).
  { unfold encodeData.
    destruct (Nat.eqb_spec (List.length params) (List.length (schema this)));
      [contradiction | reflexivity]. }
  split; [exact H | intros [b Hb]; congruence].
Qed.

(** With the right number of fields the count check is passed: what
    [encodeData] then returns or throws comes from the loop and the coder. *)
Lemma encodeData_same_length
    (this : SchemaEncoder) (params : list (SchemaItem.t Value)) :
  List.length params = List.length (schema this) ->
  encodeData this params =
    (data <- encodeItems (schema this) params ;;
     call LibEthers (defaultAbiCoder_encode (signatures this) data)).
Proof.
  intros Hlen; unfold encodeData; rewrite Hlen, Nat.eqb_refl; reflexivity.
Qed.

End FieldCount.

(** ** Validity of encoded data *)

Section Validity.

Context {ethers : Ethers} {multiformats : Multiformats}.

(** C10. [isEncodedDataValid] answers [true] when [decodeData] returns and
    [false] when it throws, whatever the error; it never throws itself. *)
Theorem isEncodedDataValid_total (this : SchemaEncoder) (data : string) :
  (returns (decodeData this data) -> isEncodedDataValid this data = Ok true) /\
  (throws (decodeData this data) -> isEncodedDataValid this data = Ok false) /\
  ~ throws (isEncodedDataValid this data).
Proof.
  unfold isEncodedDataValid.
  destruct (decodeData this data) as [items|e]; simpl.
  - repeat split.
    + intros [e H]; discriminate.
    + intros [e H]; discriminate.
  - repeat split.
    + intros [items H]; discriminate.
    + intros [e' H]; discriminate.
Qed.

End Validity.

(** ** Strings: prefixes, occurrences, replacement *)

Module StringFacts.

Lemma prefix_nil_r (a : string) : prefix a "" = true -> a = "".
Proof. destruct a; [reflexivity | discriminate]. Qed.

Lemma prefix_cons (a b : ascii) (s t : string) :
  prefix (String a s) (String b t) = true <-> a = b /\ prefix s t = true.
Proof.
  simpl. destruct (ascii_dec a b) as [->|Hne]; split.
  - auto.
  - tauto.
  - discriminate.
  - intros [H _]; contradiction.
Qed.

Lemma prefix_app (a s : string) :
  prefix a s = true <-> exists t, s = a ++ t.
Proof.
  revert s; induction a as [|c a IH]; intros s.
  - split; [exists s; reflexivity | destruct s; reflexivity].
  - destruct s as [|d s].
    + split; [discriminate | intros [t H]; discriminate].
    + rewrite prefix_cons, IH. split.
      * intros [-> [t ->]]; exists t; reflexivity.
      * intros [t H]; injection H as -> ->; split; [reflexivity | eauto].
Qed.

Lemma includes_unfold (s sub : string) :
  JS.includes s sub =
    prefix sub s ||
    match s with
    | EmptyString => false
    | String _ t => JS.includes t sub
    end.
Proof. destruct s; reflexivity. Qed.

Lemma append_assoc (a b c : string) : (a ++ b) ++ c = a ++ (b ++ c).
Proof. induction a; simpl; congruence. Qed.

(** [s.includes(sub)] holds exactly when [sub] occurs in [s]. *)
Lemma includes_spec (s sub : string) :
  JS.includes s sub = true <-> exists pre post, s = pre ++ sub ++ post.
Proof.
  split.
  - induction s as [|c s IH]; rewrite includes_unfold; intros H;
      apply orb_true_iff in H as [H|H].
    + apply prefix_nil_r in H; subst sub; exists "", ""; reflexivity.
    + discriminate.
    + apply prefix_app in H as [t ->]; exists "", t; reflexivity.
    + destruct (IH H) as (pre & post & ->).
      exists (String c pre), post; reflexivity.
  - intros (pre & post & ->).
    induction pre as [|c pre IH]; rewrite includes_unfold; apply orb_true_iff.
    + left; apply prefix_app; exists post; reflexivity.
    + right; exact IH.
Qed.

Lemma includes_trans (a b c : string) :
  JS.includes a b = true -> JS.includes b c = true -> JS.includes a c = true.
Proof.
  rewrite !includes_spec.
  intros (p1 & q1 & ->) (p2 & q2 & ->).
  exists (p1 ++ p2), (q2 ++ q1).
  rewrite !append_assoc; reflexivity.
Qed.

(** [mem c s]: the character occurs in the string. *)
Fixpoint mem (c : ascii) (s : string) : bool :=
  match s with
  | EmptyString => false
  | String d t => Ascii.eqb c d || mem c t
  end.

(** No occurrence of [pat] starts inside a text that lacks its first
    character. *)
Lemma includes_skip (p0 : ascii) (pat' pre rest : string) :
  mem p0 pre = false ->
  JS.includes (pre ++ rest) (String p0 pat') = JS.includes rest (String p0 pat').
Proof.
  induction pre as [|c pre IH]; intros Hm; [reflexivity|].
  simpl in Hm. apply orb_false_iff in Hm as [Hc Hm].
  change (String c pre ++ rest) with (String c (pre ++ rest)).
  rewrite includes_unfold, IH by assumption.
  destruct (prefix (String p0 pat') (String c (pre ++ rest))) eqn:Hp;
    [|reflexivity].
  apply prefix_cons in Hp as [-> _].
  rewrite Ascii.eqb_refl in Hc; discriminate.
Qed.

(** A character that is not in [q] cannot complete a prefix [q]. *)
Lemma prefix_snoc (c : ascii) (q s : string) :
  mem c q = false -> prefix q (s ++ String c "") = prefix q s.
Proof.
  revert q; induction s as [|d s IH]; intros q Hm.
  - destruct q as [|q0 q]; [reflexivity|].
    simpl in Hm. apply orb_false_iff in Hm as [Hc _].
    simpl. destruct (ascii_dec q0 c) as [->|_]; [|reflexivity].
    rewrite Ascii.eqb_refl in Hc; discriminate.
  - destruct q as [|q0 q]; [reflexivity|].
    simpl in Hm. apply orb_false_iff in Hm as [_ Hm].
    simpl. destruct (ascii_dec q0 d); [apply IH; assumption | reflexivity].
Qed.

Lemma includes_snoc (c p0 : ascii) (pat' s : string) :
  mem c (String p0 pat') = false ->
  JS.includes (s ++ String c "") (String p0 pat') = JS.includes s (String p0 pat').
Proof.
  intros Hm. induction s as [|d s IH].
  - simpl in Hm. apply orb_false_iff in Hm as [Hc _].
    simpl. destruct (ascii_dec p0 c) as [->|_]; [|reflexivity].
    rewrite Ascii.eqb_refl in Hc; discriminate.
  - change (String d s ++ String c "") with (String d (s ++ String c "")).
    rewrite (includes_unfold (String d (s ++ String c ""))),
            (includes_unfold (String d s)), IH.
    change (String d (s ++ String c "")) with (String d s ++ String c "").
    rewrite prefix_snoc by assumption. reflexivity.
Qed.

Section ReplaceAll.

(** A pattern and a replacement such that the replacement lacks the first
    character of the pattern, and the pattern lacks the first character of
    the replacement. *)
Variables (p0 r0 : ascii) (pat' rep' : string).
Let pat := String p0 pat'.
Let rep := String r0 rep'.
Hypothesis rep_lacks_p0 : mem p0 rep = false.
Hypothesis pat_lacks_r0 : mem r0 pat = false.

Lemma replace_all_from_cons (c : ascii) (t : string) :
  JS.replace_all_from 0 (String c t) pat rep =
    if prefix pat (String c t)
    then rep ++ JS.replace_all_from (String.length pat - 1) t pat rep
    else String c (JS.replace_all_from 0 t pat rep).
Proof. reflexivity. Qed.

(** A prefix of the rewritten text that lacks [r0] is a prefix of the
    original text. *)
Lemma prefix_replace_all (q t : string) :
  mem r0 q = false ->
  prefix q (JS.replace_all_from 0 t pat rep) = true -> prefix q t = true.
Proof.
  revert q; induction t as [|c t IH]; intros q Hm H; [exact H|].
  destruct q as [|q0 q]; [reflexivity|].
  simpl in Hm. apply orb_false_iff in Hm as [Hq0 Hm].
  rewrite replace_all_from_cons in H.
  destruct (prefix pat (String c t)).
  - unfold rep in H. change (String r0 rep' ++ ?x) with (String r0 (rep' ++ x)) in H.
    apply prefix_cons in H as [Heq _].
    rewrite Heq, Ascii.eqb_refl in Hq0; discriminate.
  - apply prefix_cons in H as [-> H].
    apply prefix_cons; split; [reflexivity | apply IH; assumption].
Qed.

(** The rewritten text has no occurrence of the pattern left. *)
Lemma replace_all_from_clean (s : string) (skip : nat) :
  JS.includes (JS.replace_all_from skip s pat rep) pat = false.
Proof.
  revert skip; induction s as [|c s IH]; intros skip; [reflexivity|].
  destruct skip as [|k]; [|apply IH].
  rewrite replace_all_from_cons.
  destruct (prefix pat (String c s)) eqn:Hp.
  - change (JS.includes
              (rep ++ JS.replace_all_from (String.length pat - 1) s pat rep)
              (String p0 pat') = false).
    rewrite includes_skip by exact rep_lacks_p0. apply IH.
  - rewrite includes_unfold, (IH 0), orb_false_r.
    destruct (prefix pat (String c (JS.replace_all_from 0 s pat rep))) eqn:Hq;
      [|reflexivity].
    change (prefix (String p0 pat')
              (String c (JS.replace_all_from 0 s pat rep)) = true) in Hq.
    apply prefix_cons in Hq as [<- Hq].
    apply prefix_replace_all in Hq.
    + assert (prefix pat (String p0 s) = true)
        by (apply prefix_cons; split; [reflexivity | exact Hq]).
      congruence.
    + pose proof pat_lacks_r0 as Hm. simpl in Hm.
      apply orb_false_iff in Hm as [_ Hm]. exact Hm.
Qed.

End ReplaceAll.

(** What the constructor does to the schema text leaves no [ipfsHash]. *)
Lemma fixedSchema_clean (schemaText : string) :
  JS.includes (JS.replace_all schemaText "ipfsHash" "bytes32") "ipfsHash" = false.
Proof.
  unfold JS.replace_all.
  apply (replace_all_from_clean "i" "b" "pfsHash" "ytes32"); reflexivity.
Qed.

(** Nor does the text handed to the fragment parser have one. *)
Lemma fragment_text_clean (schemaText : string) :
  JS.includes
    ("func(" ++ JS.replace_all schemaText "ipfsHash" "bytes32" ++ ")")
    "ipfsHash" = false.
Proof.
  rewrite (includes_skip "i" "pfsHash" "func(") by reflexivity.
  rewrite (includes_snoc ")" "i" "pfsHash") by reflexivity.
  apply fixedSchema_clean.
Qed.

End StringFacts.

(** ** Default values *)

(** [getDefaultValueForTypeName], case by case: the default that goes with
    a type name. *)
Definition scalar_default (typeName : string) (v : Value) : Prop :=
  (typeName = "bool" -> v = VBool false) /\
  (JS.includes typeName "uint" = true -> v = VString "0") /\
  (typeName = "address" -> v = VString ZERO_ADDRESS) /\
  (typeName <> "bool" -> JS.includes typeName "uint" = false ->
   typeName <> "address" -> v = VString "").

(** The stored default as the constructor computes it. The test for the
    empty sequence is the one of the code, [type.includes('[]')] on the
    canonical type: the two characters occur somewhere in it. Where they
    do not, the default is the one of [typeName]. *)
Definition default_rule (typeName canonical : string) (v : Value) : Prop :=
  (JS.includes canonical "[]" = true -> v = VArray []) /\
  (JS.includes canonical "[]" = false -> scalar_default typeName v).

(** The variable [typeName] when the loop body reaches the lookup: the
    parsed type, without its first [[]] unless it is a tuple type. *)
Definition typeNameOf (paramType : ParamType.t) : string :=
  let type := ParamType.type paramType in
  if (type =? TUPLE_TYPE) || (type =? TUPLE_ARRAY_TYPE) then type
  else if JS.includes type "[]" then JS.replace type "[]" "" else type.

(** The variable [singleValue]. *)
Definition singleValueOf (paramType : ParamType.t) : Value :=
  getDefaultValueForTypeName (typeNameOf paramType).

Lemma getDefaultValueForTypeName_rule (typeName : string) :
  scalar_default typeName (getDefaultValueForTypeName typeName).
Proof.
  unfold scalar_default, getDefaultValueForTypeName.
  repeat split.
  - intros ->; reflexivity.
  - intros Hu. destruct (String.eqb_spec typeName "bool") as [->|_].
    + discriminate Hu.
    + rewrite Hu; reflexivity.
  - intros ->; reflexivity.
  - intros Hb Hu Ha.
    destruct (String.eqb_spec typeName "bool"); [contradiction|].
    rewrite Hu.
    destruct (String.eqb_spec typeName "address"); [contradiction|reflexivity].
Qed.

Lemma schemaItemOf_value (paramType : ParamType.t) :
  SchemaItemWithSignature.value (schemaItemOf paramType) =
    if JS.includes (SchemaItemWithSignature.type (schemaItemOf paramType)) "[]"
    then VArray []
    else singleValueOf paramType.
Proof.
  unfold schemaItemOf, singleValueOf, typeNameOf.
  destruct paramType as [name type components]; simpl.
  destruct (type =? TUPLE_TYPE); simpl; [reflexivity|].
  destruct (type =? TUPLE_ARRAY_TYPE); simpl; [reflexivity|].
  destruct (JS.includes type "[]"); reflexivity.
Qed.

Lemma prefix_empty (s : string) : prefix "" s = true.
Proof. destruct s; reflexivity. Qed.

(** The first occurrence of [[]] in a text, taken out. *)
Lemma replace_first_marker (base rest : string) :
  JS.includes base "[]" = false ->
  JS.replace (base ++ "[]" ++ rest) "[]" "" = base ++ rest.
Proof.
  induction base as [|c base IH]; intros H.
  - simpl. rewrite prefix_empty. reflexivity.
  - rewrite StringFacts.includes_unfold in H.
    apply orb_false_iff in H as [Hp Hb].
    change (String c base ++ "[]" ++ rest) with (String c (base ++ "[]" ++ rest)).
    cbn [JS.replace].
    replace (prefix "[]" (String c (base ++ "[]" ++ rest))) with false.
    + rewrite (IH Hb). reflexivity.
    + symmetry. cbn [prefix] in Hp |- *.
      destruct (ascii_dec "[" c) as [_|_]; [|reflexivity].
      destruct base as [|d base]; [reflexivity|].
      change (String d base ++ "[]" ++ rest)
        with (String d (base ++ "[]" ++ rest)).
      cbn [prefix] in Hp |- *.
      destruct (ascii_dec "]" d) as [_|_]; [|reflexivity].
      rewrite prefix_empty in Hp. discriminate Hp.
Qed.

(** Where the canonical type has no [[]], no marker was taken off: the
    type name looked up is the parsed type. *)
Lemma typeNameOf_plain (paramType : ParamType.t) :
  JS.includes (SchemaItemWithSignature.type (schemaItemOf paramType)) "[]" = false ->
  typeNameOf paramType = ParamType.type paramType.
Proof.
  unfold schemaItemOf, typeNameOf.
  destruct paramType as [name type components]; simpl.
  destruct (type =? TUPLE_TYPE); simpl; [reflexivity|].
  destruct (type =? TUPLE_ARRAY_TYPE); simpl; [reflexivity|].
  destruct (JS.includes type "[]") eqn:Hi; simpl; [|reflexivity].
  rewrite Hi. discriminate.
Qed.

(** What the constructor stores for one parsed parameter. *)
Definition stored_default
    (paramType : ParamType.t) (item : SchemaItemWithSignature.t) : Prop :=
  let type := ParamType.type paramType in
  let canonical := SchemaItemWithSignature.type item in
  let value := SchemaItemWithSignature.value item in
  (* the empty sequence exactly where the canonical type holds [[]];
     elsewhere the default of the parsed type *)
  default_rule type canonical value /\
  (value = VArray [] <-> JS.includes canonical "[]" = true) /\
  (* the value looked up, and the type name it is looked up on *)
  (JS.includes canonical "[]" = false -> value = singleValueOf paramType) /\
  scalar_default (typeNameOf paramType) (singleValueOf paramType) /\
  (type = TUPLE_TYPE \/ type = TUPLE_ARRAY_TYPE -> typeNameOf paramType = type) /\
  (type <> TUPLE_TYPE -> type <> TUPLE_ARRAY_TYPE ->
   (JS.includes type "[]" = false -> typeNameOf paramType = type) /\
   (forall base rest,
      type = base ++ "[]" ++ rest -> JS.includes base "[]" = false ->
      typeNameOf paramType = base ++ rest /\
      (* the marker is taken off, and the stored default is the empty
         sequence whatever the lookup gave *)
      canonical = type /\ value = VArray [])).

Lemma scalar_default_not_array (typeName : string) :
  getDefaultValueForTypeName typeName <> VArray [].
Proof.
  unfold getDefaultValueForTypeName.
  destruct (typeName =? "bool"); [discriminate|].
  destruct (JS.includes typeName "uint"); [discriminate|].
  destruct (typeName =? "address"); discriminate.
Qed.

Lemma schemaItemOf_default (paramType : ParamType.t) :
  stored_default paramType (schemaItemOf paramType).
Proof.
  unfold stored_default.
  pose proof (schemaItemOf_value paramType) as Hv.
  pose proof (typeNameOf_plain paramType) as Hplain.
  split; [|split; [|split; [|split; [|split]]]].
  - split; intros Hi; rewrite Hv, Hi; [reflexivity|].
    unfold singleValueOf. rewrite (Hplain Hi).
    apply getDefaultValueForTypeName_rule.
  - rewrite Hv.
    destruct (JS.includes (SchemaItemWithSignature.type (schemaItemOf paramType)) "[]").
    + split; reflexivity.
    + split; [|discriminate].
      intros H. apply scalar_default_not_array in H. contradiction.
  - intros Hi. rewrite Hv, Hi. reflexivity.
  - apply getDefaultValueForTypeName_rule.
  - unfold typeNameOf. intros [->| ->]; reflexivity.
  - intros Ht Ha. unfold typeNameOf.
    destruct (String.eqb_spec (ParamType.type paramType) TUPLE_TYPE);
      [contradiction|].
    destruct (String.eqb_spec (ParamType.type paramType) TUPLE_ARRAY_TYPE);
      [contradiction|].
    simpl. split.
    + intros ->. reflexivity.
    + intros base rest Heq Hbase.
      assert (Hi : JS.includes (ParamType.type paramType) "[]" = true).
      { apply StringFacts.includes_spec. exists base, rest. exact Heq. }
      assert (Hc : SchemaItemWithSignature.type (schemaItemOf paramType) =
                   ParamType.type paramType).
      { unfold schemaItemOf.
        destruct paramType as [name type components]; simpl in *.
        destruct (String.eqb_spec type TUPLE_TYPE); [contradiction|].
        destruct (String.eqb_spec type TUPLE_ARRAY_TYPE); [contradiction|].
        rewrite Hi. reflexivity. }
      rewrite Hi. split; [|split].
      * rewrite Heq. apply replace_first_marker. exact Hbase.
      * exact Hc.
      * rewrite Hv, Hc, Hi. reflexivity.
Qed.

Section Defaults.

Context {ethers : Ethers}.

(** C9, amended. Every field the constructor produces comes from one
    parsed parameter, and its stored default is the empty sequence exactly
    when its canonical type holds the two characters [[]] somewhere: so for
    [uint8[]] and for an array of tuples, but also for a tuple that has an
    array among its components, and not for an array of fixed length such
    as [uint8[2]]. Otherwise the default is the one of the parsed type:
    [false] for [bool], ["0"] for a type that holds [uint], the zero
    address for [address], the empty string for anything else. The lookup
    is made on the parsed type without its first [[]] for types other than
    [tuple] and [tuple[]]; a marker is taken off only where the canonical
    type holds [[]], where the stored default is the empty sequence, so
    that the lookup does not show in it. *)
Theorem constructor_defaults (schemaText : string) (this : SchemaEncoder) :
  constructor schemaText = Ok this ->
  exists inputs,
    FunctionFragment_from
      ("func(" ++ JS.replace_all schemaText "ipfsHash" "bytes32" ++ ")")
      = Some inputs /\
    schema this = map schemaItemOf inputs /\
    Forall2 stored_default inputs (schema this).
Proof.
  unfold constructor; intros H.
  apply bind_Ok in H as (inputs & Hin & H).
  apply bind_Ok in H as (u & _ & H).
  injection H as <-.
  exists inputs; split; [now apply call_Ok in Hin|].
  split; [reflexivity|]. simpl.
  clear Hin. induction inputs as [|p inputs IH]; simpl; constructor; auto.
  apply schemaItemOf_default.
Qed.

End Defaults.

(** ** The content-hash field *)

Lemma schemaItemOf_name (paramType : ParamType.t) :
  SchemaItemWithSignature.name (schemaItemOf paramType) = ParamType.name paramType.
Proof.
  unfold schemaItemOf. destruct paramType as [name type components]; simpl.
  destruct (type =? TUPLE_TYPE); simpl; [reflexivity|].
  destruct (type =? TUPLE_ARRAY_TYPE); simpl; [reflexivity|].
  destruct (JS.includes type "[]"); reflexivity.
Qed.

Section ContentHash.

Context {ethers : Ethers} {multiformats : Multiformats}.

(** What [encodeData] pushes for a field when the content-hash branch is
    not taken. *)
Definition plainDataOf
    (schemaItem : SchemaItemWithSignature.t) (value : Value) : Result Value :=
  if (SchemaItemWithSignature.type schemaItem =? "bytes32") &&
     Val.is_string value && negb (utils.isBytesLike value)
  then s <- utils.formatBytes32String value ;; Ok (VString s)
  else Ok value.

(** C5, amended. The constructor rewrites every [ipfsHash] of the schema
    text, the ones inside field names too: the text handed to the parser
    has no occurrence left, and the names of the descriptors are the names
    the parser returns on that text. Hence a field whose name is a piece of
    the text parsed has no [ipfsHash] in its name; such a field, and a
    field without a name, fails the test
    [type === 'bytes32' && name === 'ipfsHash'] of [encodeData], and the
    value pushed for it is not the one of [decodeIpfsValue]. The branch is
    taken for a field of type [bytes32] only whose name, [ipfsHash], is no
    piece of the text parsed: a name the parser has put together. *)
Theorem ipfsHash_rewritten_in_names (schemaText : string) (this : SchemaEncoder) :
  constructor schemaText = Ok this ->
  JS.includes (JS.replace_all schemaText "ipfsHash" "bytes32") "ipfsHash" = false /\
  JS.includes ("func(" ++ JS.replace_all schemaText "ipfsHash" "bytes32" ++ ")")
    "ipfsHash" = false /\
  (exists inputs,
     FunctionFragment_from
       ("func(" ++ JS.replace_all schemaText "ipfsHash" "bytes32" ++ ")")
       = Some inputs /\
     map SchemaItemWithSignature.name (schema this) = map ParamType.name inputs) /\
  Forall
    (fun schemaItem =>
       (forall name,
          SchemaItemWithSignature.name schemaItem = Some name ->
          JS.includes
            ("func(" ++ JS.replace_all schemaText "ipfsHash" "bytes32" ++ ")")
            name = true ->
          JS.includes name "ipfsHash" = false /\
          ipfsHash_field schemaItem = false /\
          forall value, dataOf schemaItem value = plainDataOf schemaItem value) /\
       (SchemaItemWithSignature.name schemaItem = None ->
        ipfsHash_field schemaItem = false /\
        forall value, dataOf schemaItem value = plainDataOf schemaItem value) /\
       (ipfsHash_field schemaItem = true ->
        SchemaItemWithSignature.type schemaItem = "bytes32" /\
        SchemaItemWithSignature.name schemaItem = Some "ipfsHash" /\
        JS.includes
          ("func(" ++ JS.replace_all schemaText "ipfsHash" "bytes32" ++ ")")
          "ipfsHash" = false /\
        forall value, dataOf schemaItem value = decodeIpfsValue value))
    (schema this).
Proof.
  intros Hc.
  pose proof (StringFacts.fragment_text_clean schemaText) as Hclean.
  split; [apply StringFacts.fixedSchema_clean|].
  split; [exact Hclean|].
  split.
  { unfold constructor in Hc.
    apply bind_Ok in Hc as (inputs & Hin & Hc).
    apply bind_Ok in Hc as (u & _ & Hc).
    injection Hc as <-. apply call_Ok in Hin.
    exists inputs. split; [exact Hin|]. simpl.
    rewrite map_map. apply map_ext. exact schemaItemOf_name. }
  apply Forall_forall. intros schemaItem _.
  assert (Hplain : ipfsHash_field schemaItem = false ->
                   forall value,
                     dataOf schemaItem value = plainDataOf schemaItem value).
  { intros Hguard value. unfold dataOf, plainDataOf. rewrite Hguard. reflexivity. }
  split; [|split].
  - intros name Hn Hpiece.
    assert (Hname : JS.includes name "ipfsHash" = false).
    { destruct (JS.includes name "ipfsHash") eqn:Hi; [|reflexivity].
      pose proof (StringFacts.includes_trans _ _ _ Hpiece Hi) as Ht.
      rewrite Hclean in Ht; discriminate. }
    assert (Hguard : ipfsHash_field schemaItem = false).
    { unfold ipfsHash_field. rewrite Hn. simpl.
      destruct (String.eqb_spec name "ipfsHash") as [->|_];
        [discriminate Hname | apply andb_false_r]. }
    split; [exact Hname|]. split; [exact Hguard | exact (Hplain Hguard)].
  - intros Hn.
    assert (Hguard : ipfsHash_field schemaItem = false)
      by (unfold ipfsHash_field; rewrite Hn; apply andb_false_r).
    split; [exact Hguard | exact (Hplain Hguard)].
  - intros Hguard. unfold ipfsHash_field in Hguard.
    apply andb_true_iff in Hguard as [Hty Hn].
    apply String.eqb_eq in Hty.
    destruct (SchemaItemWithSignature.name schemaItem) as [name|] eqn:Hname;
      [|discriminate Hn].
    simpl in Hn. apply String.eqb_eq in Hn. subst name.
    split; [exact Hty|]. split; [reflexivity|]. split; [exact Hclean|].
    intros value. unfold dataOf, ipfsHash_field.
    rewrite Hty, Hname. reflexivity.
Qed.

(** *** The fallback of the content-hash path *)

(** The UTF-8 bytes of [s] followed by zeros up to 32 bytes, as text. *)
Definition padded32 (s : string) : string :=
  utils.hexlify
    (utils.utf8 s ++ repeat x00 (32 - List.length (utils.utf8 s)))%list.

Lemma firstn_repeat {A} (x : A) (k n : nat) :
  k <= n -> firstn k (repeat x n) = repeat x k.
Proof.
  revert n; induction k as [|k IH]; intros [|n] Hk; simpl;
    try reflexivity; try lia.
  f_equal; apply IH; lia.
Qed.

Lemma formatBytes32String_short (s : string) :
  List.length (utils.utf8 s) <= 31 ->
  utils.formatBytes32String (VString s) = Ok (padded32 s).
Proof.
  intros Hlen.
  unfold utils.formatBytes32String, utils.toUtf8Bytes, bind, padded32.
  destruct (Nat.ltb_spec 31 (List.length (utils.utf8 s))); [lia|].
  rewrite firstn_app, firstn_all2 by lia.
  rewrite firstn_repeat by lia. reflexivity.
Qed.

Lemma formatBytes32String_long (s : string) :
  31 < List.length (utils.utf8 s) ->
  utils.formatBytes32String (VString s) = Throw (LibraryError LibEthers).
Proof.
  intros Hlen. unfold utils.formatBytes32String, utils.toUtf8Bytes, bind.
  destruct (Nat.ltb_spec 31 (List.length (utils.utf8 s))); [reflexivity|lia].
Qed.

(** C3, amended. A string that is not byte-like, that [CID.parse] rejects
    and that the coder does not take for a [bytes32] falls back to
    [formatBytes32String]: [decodeIpfsValue] returns the UTF-8 bytes padded
    with zeros to 32 bytes when the string has at most 31 bytes, and throws
    when it has more. *)
Theorem decodeIpfsValue_fallback (val : string) :
  utils.isBytesLike (VString val) = false ->
  CID_parse (VString val) = None ->
  defaultAbiCoder_encode ["bytes32"] [VString val] = None ->
  (List.length (utils.utf8 val) <= 31 ->
   decodeIpfsValue (VString val) = Ok (VString (padded32 val))) /\
  (31 < List.length (utils.utf8 val) ->
   decodeIpfsValue (VString val) = Throw (LibraryError LibEthers)).
Proof.
  intros Hb Hcid Henc.
  unfold decodeIpfsValue, encodeBytes32Value.
  rewrite Hb, Hcid, Henc; simpl.
  split; intros Hlen.
  - rewrite formatBytes32String_short by assumption; reflexivity.
  - rewrite formatBytes32String_long by assumption; reflexivity.
Qed.

(** *** Strings in a [bytes32] field *)

Lemma encodeItems_nth
    (items : list SchemaItemWithSignature.t) (params : list (SchemaItem.t Value))
    (data : list Value) :
  encodeItems items params = Ok data ->
  forall i schemaItem param,
    nth_error items i = Some schemaItem -> nth_error params i = Some param ->
    exists v, encodeItem schemaItem param = Ok v /\ nth_error data i = Some v.
Proof.
  revert params data; induction items as [|d items IH];
    intros params data H i schemaItem param Hd Hp.
  - destruct i; discriminate.
  - destruct params as [|p params]; [discriminate|]. simpl in H.
    apply bind_Ok in H as (v & Hv & H).
    apply bind_Ok in H as (vs & Hvs & H).
    injection H as <-.
    destruct i as [|i]; simpl in *.
    + injection Hd as <-; injection Hp as <-; eauto.
    + eapply IH; eauto.
Qed.

Lemma encodeItem_Ok
    (schemaItem : SchemaItemWithSignature.t) (param : SchemaItem.t Value) (v : Value) :
  encodeItem schemaItem param = Ok v ->
  incompatible_type (JS.remove_whitespace (SchemaItem.type param)) schemaItem = false /\
  SchemaItem.name param = SchemaItemWithSignature.name schemaItem /\
  dataOf schemaItem (SchemaItem.value param) = Ok v.
Proof.
  unfold encodeItem.
  destruct (incompatible_type _ schemaItem); [discriminate|].
  destruct (Name_eqb (SchemaItem.name param)
              (SchemaItemWithSignature.name schemaItem)) eqn:Hn;
    simpl; [|discriminate].
  intros H; repeat split; [|exact H].
  destruct (SchemaItem.name param) as [a|],
           (SchemaItemWithSignature.name schemaItem) as [b|];
    simpl in Hn; try discriminate; [|reflexivity].
  apply String.eqb_eq in Hn; congruence.
Qed.

(** C4, amended. For a field of type [bytes32] that is not named
    [ipfsHash], given a string that is not byte-like: the value handed to
    the coder is [formatBytes32String] of the string, that is its UTF-8
    bytes padded with zeros to 32 bytes, when it has at most 31 bytes; when
    it has more, nothing is truncated and [encodeData] throws. *)
Theorem encodeData_bytes32_string
    (this : SchemaEncoder) (params : list (SchemaItem.t Value)) (i : nat)
    (schemaItem : SchemaItemWithSignature.t) (param : SchemaItem.t Value)
    (str : string) :
  List.length params = List.length (schema this) ->
  nth_error (schema this) i = Some schemaItem ->
  nth_error params i = Some param ->
  SchemaItemWithSignature.type schemaItem = "bytes32" ->
  SchemaItemWithSignature.name schemaItem <> Some "ipfsHash" ->
  SchemaItem.value param = VString str ->
  utils.isBytesLike (VString str) = false ->
  dataOf schemaItem (VString str) =
    (s <- utils.formatBytes32String (VString str) ;; Ok (VString s)) /\
  (List.length (utils.utf8 str) <= 31 ->
   forall data, encodeItems (schema this) params = Ok data ->
                nth_error data i = Some (VString (padded32 str))) /\
  (31 < List.length (utils.utf8 str) -> throws (encodeData this params)).
Proof.
  intros Hlen Hd Hp Hty Hname Hval Hb.
  assert (Hdata : dataOf schemaItem (VString str) =
                  (s <- utils.formatBytes32String (VString str) ;; Ok (VString s))).
  { unfold dataOf, ipfsHash_field. rewrite Hty, Hb. simpl.
    destruct (SchemaItemWithSignature.name schemaItem) as [n|]; simpl;
      [|reflexivity].
    destruct (String.eqb_spec n "ipfsHash") as [->|_];
      [contradiction Hname; reflexivity | reflexivity]. }
  split; [exact Hdata|]. split.
  - intros Hshort data Hitems.
    destruct (encodeItems_nth _ _ _ Hitems _ _ _ Hd Hp) as (v & Hv & Hnth).
    apply encodeItem_Ok in Hv as (_ & _ & Hv).
    rewrite Hval, Hdata, formatBytes32String_short in Hv by assumption.
    simpl in Hv. congruence.
  - intros Hlong.
    destruct (returns_or_throws (encodeData this params)) as [[bytes Hr]|Ht];
      [exfalso | exact Ht].
    rewrite encodeData_same_length in Hr by assumption.
    apply bind_Ok in Hr as (data & Hitems & _).
    destruct (encodeItems_nth _ _ _ Hitems _ _ _ Hd Hp) as (v & Hv & _).
    apply encodeItem_Ok in Hv as (_ & _ & Hv).
    rewrite Hval, Hdata, formatBytes32String_long in Hv by assumption.
    discriminate.
Qed.

End ContentHash.

(** ** Labelling the components of a tuple *)

Lemma nameValues_from_spec
    (components : list ParamType.t) (rawValues : list Value) :
  forall k namedValue,
    nameValues_from k components rawValues = Ok namedValue ->
    map SchemaItem.value namedValue = rawValues /\
    forall j item,
      nth_error namedValue j = Some item ->
      exists component,
        nth_error components (k + j) = Some component /\
        item = SchemaItem.Build (ParamType.name component)
                 (ParamType.type component) (SchemaItem.value item).
Proof.
  induction rawValues as [|v rest IH]; intros k namedValue H; simpl in H.
  - injection H as <-. split; [reflexivity|]. intros [|j] item Hj; discriminate.
  - destruct (nth_error components k) as [component|] eqn:Hk; [|discriminate].
    apply bind_Ok in H as (tail & Htail & H). injection H as <-.
    destruct (IH _ _ Htail) as [Hmap Hnth]. split.
    + simpl; f_equal; exact Hmap.
    + intros [|j] item Hj; simpl in Hj.
      * injection Hj as <-. exists component.
        rewrite Nat.add_0_r; split; [exact Hk | reflexivity].
      * destruct (Hnth _ _ Hj) as (c & Hc & Hi).
        exists c. rewrite <- Nat.add_succ_comm. split; assumption.
Qed.

Lemma nameValues_from_returns
    (components : list ParamType.t) (rawValues : list Value) :
  forall k,
    k + List.length rawValues <= List.length components ->
    returns (nameValues_from k components rawValues).
Proof.
  induction rawValues as [|v rest IH]; intros k Hk; simpl.
  - eexists; reflexivity.
  - simpl in Hk.
    destruct (nth_error components k) as [component|] eqn:Hc.
    + destruct (IH (S k)) as [tail ->]; [lia|]. eexists; reflexivity.
    + apply nth_error_None in Hc. lia.
Qed.

Lemma filter_length_le {A} (f : A -> bool) (l : list A) :
  List.length (filter f l) <= List.length l.
Proof. induction l as [|x l IH]; simpl; [|destruct (f x); simpl]; lia. Qed.

Lemma filter_length_lt {A} (f : A -> bool) (l : list A) :
  existsb (fun x => negb (f x)) l = true ->
  List.length (filter f l) < List.length l.
Proof.
  induction l as [|x l IH]; simpl; [discriminate|].
  pose proof (filter_length_le f l) as Hle.
  destruct (f x); simpl; intros Hex; [apply IH in Hex|]; lia.
Qed.

(** The place of a kept element in the filtered list: the number of kept
    elements before it. *)
Lemma nth_error_filter {A} (f : A -> bool) (l : list A) (j : nat) (x : A) :
  nth_error l j = Some x -> f x = true ->
  nth_error (filter f l) (List.length (filter f (firstn j l))) = Some x.
Proof.
  revert j; induction l as [|y l IH]; intros [|j] Hj Hx; simpl in *;
    try discriminate.
  - injection Hj as ->. rewrite Hx. reflexivity.
  - destruct (f y); simpl; apply IH; assumption.
Qed.

(** What the labelling of one tuple [vs] against [components] yields. *)
Definition labelled
    (components : list ParamType.t) (vs : list Value)
    (namedValue : list (SchemaItem.t Value)) : Prop :=
  (* the values labelled are the sub-values that are no objects, in order *)
  map SchemaItem.value namedValue = filter Val.not_object vs /\
  (* the k-th of them carries the name and type of the k-th component *)
  (forall k item,
     nth_error namedValue k = Some item ->
     exists component,
       nth_error components k = Some component /\
       SchemaItem.name item = ParamType.name component /\
       SchemaItem.type item = ParamType.type component) /\
  (* a sub-value that is an object is not in the output *)
  (forall v, In v vs -> Val.not_object v = false ->
             ~ In v (map SchemaItem.value namedValue)) /\
  (* a sub-value at place j that is kept is labelled by component k, the
     number of kept sub-values before it; k < j once an object precedes *)
  (forall j v,
     nth_error vs j = Some v -> Val.not_object v = true ->
     let k := List.length (filter Val.not_object (firstn j vs)) in
     k <= j /\
     (existsb (fun x => negb (Val.not_object x)) (firstn j vs) = true -> k < j) /\
     exists component,
       nth_error components k = Some component /\
       nth_error namedValue k =
         Some (SchemaItem.Build (ParamType.name component)
                 (ParamType.type component) v)).

Lemma namedValueOf_labelled
    (components : list ParamType.t) (val : Value)
    (namedValue : list (SchemaItem.t Value)) :
  namedValueOf components val = Ok namedValue ->
  exists vs, Val.elements val = Some vs /\ labelled components vs namedValue.
Proof.
  unfold namedValueOf.
  destruct (Val.elements val) as [vs|]; [|discriminate].
  intros H. exists vs; split; [reflexivity|].
  destruct (nameValues_from_spec _ _ _ _ H) as [Hmap Hnth].
  split; [exact Hmap|]. split; [|split].
  - intros k item Hk. destruct (Hnth _ _ Hk) as (c & Hc & Hi).
    exists c. rewrite Hi; simpl. auto.
  - intros v _ Hobj Hin. rewrite Hmap in Hin.
    apply filter_In in Hin as [_ Hkeep]. congruence.
  - intros j v Hj Hkeep k.
    pose proof (filter_length_le Val.not_object (firstn j vs)) as Hle.
    pose proof (firstn_le_length j vs) as Hfl.
    split; [subst k; lia|]. split.
    { intros Hex. apply filter_length_lt in Hex. subst k; lia. }
    pose proof (nth_error_filter _ _ _ _ Hj Hkeep) as Hf. subst k.
    rewrite <- Hmap, nth_error_map in Hf.
    destruct (nth_error namedValue
                (List.length (filter Val.not_object (firstn j vs))))
      as [item|] eqn:Hitem; [|discriminate].
    simpl in Hf. injection Hf as Hv.
    destruct (Hnth _ _ Hitem) as (c & Hc & Hi).
    exists c. split; [exact Hc|]. rewrite Hi, Hv. reflexivity.
Qed.

(** The new value of a field with components: the labelling of the tuple,
    or of every tuple of the array. *)
Lemma wrap_labelled
    (s : SchemaItemWithSignature.t) (components : list ParamType.t)
    (value : Value) (wrapped : SchemaItem.t DecodedValue) :
  wrap s (Some components) value = Ok wrapped ->
  Val.length_positive value = true ->
  (Val.first_isArray value = false ->
   exists vs namedValue,
     Val.elements value = Some vs /\
     SchemaItem.value wrapped = Named namedValue /\
     labelled components vs namedValue) /\
  (Val.first_isArray value = true ->
   exists vals namedValues,
     Val.elements value = Some vals /\
     SchemaItem.value wrapped = NamedList namedValues /\
     Forall2
       (fun val namedValue =>
          exists vs, Val.elements val = Some vs /\
                     labelled components vs namedValue)
       vals namedValues).
Proof.
  unfold wrap. intros H Hpos. rewrite Hpos in H.
  destruct (Val.first_isArray value); split; try discriminate; intros _.
  - destruct (Val.elements value) as [vals|]; [|discriminate].
    apply bind_Ok in H as (namedValues & Hm & H). injection H as <-.
    exists vals, namedValues. repeat split.
    clear Hpos. revert namedValues Hm.
    induction vals as [|val vals IH]; intros namedValues Hm; simpl in Hm.
    + injection Hm as <-. constructor.
    + apply bind_Ok in Hm as (nv & Hnv & Hm).
      apply bind_Ok in Hm as (nvs & Hnvs & Hm). injection Hm as <-.
      constructor; [apply namedValueOf_labelled; exact Hnv | apply IH; exact Hnvs].
  - apply bind_Ok in H as (namedValue & Hnv & H). injection H as <-.
    destruct (namedValueOf_labelled _ _ _ Hnv) as (vs & Hvs & Hl).
    exists vs, namedValue. auto.
Qed.

(** ** Decoding what was encoded *)

Lemma nth_error_entries_from {A} (l : list A) (a i : nat) :
  nth_error (combine (seq a (List.length l)) l) i =
    option_map (pair (a + i)) (nth_error l i).
Proof.
  revert a i; induction l as [|x l IH]; intros a [|i]; simpl; try reflexivity.
  - rewrite Nat.add_0_r; reflexivity.
  - rewrite IH, Nat.add_succ_comm; reflexivity.
Qed.

Lemma Forall2_nth_error_l {A B} (P : A -> B -> Prop) (l : list A) (l' : list B) :
  Forall2 P l l' ->
  forall i x, nth_error l i = Some x ->
  exists y, nth_error l' i = Some y /\ P x y.
Proof.
  induction 1 as [|x0 y0 l l' Hxy _ IH]; intros [|i] x Hx; simpl in *;
    try discriminate.
  - injection Hx as <-; eauto.
  - eauto.
Qed.

Lemma nth_error_entries {A} (l : list A) (i : nat) :
  nth_error (entries l) i = option_map (pair i) (nth_error l i).
Proof. apply (nth_error_entries_from l 0 i). Qed.

Lemma wrap_envelope
    (s : SchemaItemWithSignature.t) (components : option (list ParamType.t))
    (value : Value) (wrapped : SchemaItem.t DecodedValue) :
  wrap s components value = Ok wrapped ->
  SchemaItem.name wrapped = SchemaItemWithSignature.name s /\
  SchemaItem.type wrapped = SchemaItemWithSignature.type s /\
  (components = None -> SchemaItem.value wrapped = Raw value).
Proof.
  unfold wrap. intros H.
  destruct components as [components|].
  - destruct (Val.length_positive value).
    + destruct (Val.first_isArray value).
      * destruct (Val.elements value); [|discriminate].
        apply bind_Ok in H as (x & _ & H). injection H as <-.
        repeat split; discriminate.
      * apply bind_Ok in H as (x & _ & H). injection H as <-.
        repeat split; discriminate.
    + injection H as <-. repeat split; discriminate.
  - injection H as <-. repeat split.
Qed.

(** A value can be labelled against [components] when it can be filtered
    and keeps no more sub-values than there are components. *)
Definition fits (components : list ParamType.t) (val : Value) : bool :=
  match Val.elements val with
  | Some vs =>
      Nat.leb (List.length (filter Val.not_object vs)) (List.length components)
  | None => false
  end.

Lemma namedValueOf_returns (components : list ParamType.t) (val : Value) :
  fits components val = true -> returns (namedValueOf components val).
Proof.
  unfold fits, namedValueOf.
  destruct (Val.elements val) as [vs|]; [|discriminate].
  intros H. apply Nat.leb_le in H.
  apply nameValues_from_returns. simpl. exact H.
Qed.

Section RoundTrip.

Context {ethers : Ethers} {multiformats : Multiformats}.

(** What [decodeData] relies on for one field and the value the coder
    decoded for it: the parser reads the signature back as one parameter
    and, where that parameter has components, a non-empty value is a tuple
    or a sequence of tuples that can be labelled. *)
Definition decodable (s : SchemaItemWithSignature.t) (value : Value) : bool :=
  match FunctionFragment_from
          ("func(" ++ SchemaItemWithSignature.signature s ++ ")") with
  | Some [input] =>
      match ParamType.components input with
      | None => true
      | Some components =>
          if Val.length_positive value then
            if Val.first_isArray value then
              match Val.elements value with
              | Some vals => forallb (fits components) vals
              | None => false
              end
            else fits components value
          else true
      end
  | _ => false
  end.

Lemma decodeItem_returns
    (values : list Value) (i : nat) (s : SchemaItemWithSignature.t) (value : Value) :
  nth_error values i = Some value ->
  decodable s value = true ->
  returns (decodeItem values (i, s)).
Proof.
  unfold decodable, decodeItem. intros Hv H.
  destruct (FunctionFragment_from _) as [[|input [|]]|]; try discriminate.
  simpl. rewrite Hv.
  assert (Hw : returns (wrap s (ParamType.components input) value)).
  { unfold wrap.
    destruct (ParamType.components input) as [components|];
      [|eexists; reflexivity].
    destruct (Val.length_positive value); [|eexists; reflexivity].
    destruct (Val.first_isArray value).
    - destruct (Val.elements value) as [vals|]; [|discriminate].
      destruct (mapM_returns (namedValueOf components) vals) as [r ->].
      + apply Forall_forall. intros val Hin.
        apply namedValueOf_returns.
        rewrite forallb_forall in H. auto.
      + eexists; reflexivity.
    - destruct (namedValueOf_returns _ _ H) as [r ->]. eexists; reflexivity. }
  destruct Hw as [w ->]. eexists; reflexivity.
Qed.

Lemma decodeItem_Ok
    (values : list Value) (i : nat) (s : SchemaItemWithSignature.t)
    (r : SchemaDecodedItem.t) :
  decodeItem values (i, s) = Ok r ->
  exists input value,
    FunctionFragment_from
      ("func(" ++ SchemaItemWithSignature.signature s ++ ")") = Some [input] /\
    nth_error values i = Some value /\
    wrap s (ParamType.components input) value = Ok (SchemaDecodedItem.value r) /\
    SchemaDecodedItem.name r = SchemaItemWithSignature.name s /\
    SchemaDecodedItem.type r = SchemaItemWithSignature.type s /\
    SchemaDecodedItem.signature r = SchemaItemWithSignature.signature s.
Proof.
  unfold decodeItem. intros H.
  destruct (FunctionFragment_from _) as [[|input [|]]|]; try discriminate.
  simpl in H.
  destruct (nth_error values i) as [value|]; [|discriminate].
  apply bind_Ok in H as (w & Hw & H). injection H as <-.
  exists input, value. simpl. auto 10.
Qed.

(** X1. The round trip, where the decoded values can be labelled. For an
    encoder and a list [encodeData] accepts, let the coder decode the
    bytes it produced into [values], one value per field, each
    [decodable]. Then [decodeData] returns
    on those bytes, with one record per field; the record of field i has
    the name, canonical type and signature of descriptor i, and so has the
    envelope inside it; and for a field whose signature has no components
    (a scalar, in particular) the envelope holds exactly the value the
    coder decoded from its own encoding of the value that was encoded. *)
Theorem decodeData_encodeData
    (this : SchemaEncoder)
    (params : list (SchemaItem.t Value)) (bytes : string) (values : list Value) :
  encodeData this params = Ok bytes ->
  defaultAbiCoder_decode (signatures this) bytes = Some values ->
  Forall2 (fun d v => decodable d v = true) (schema this) values ->
  exists data decoded,
    encodeItems (schema this) params = Ok data /\
    defaultAbiCoder_encode (signatures this) data = Some bytes /\
    (forall i d p x,
       nth_error (schema this) i = Some d -> nth_error params i = Some p ->
       nth_error data i = Some x -> dataOf d (SchemaItem.value p) = Ok x) /\
    decodeData this bytes = Ok decoded /\
    List.length decoded = List.length (schema this) /\
    forall i d r,
      nth_error (schema this) i = Some d -> nth_error decoded i = Some r ->
      SchemaDecodedItem.name r = SchemaItemWithSignature.name d /\
      SchemaDecodedItem.type r = SchemaItemWithSignature.type d /\
      SchemaDecodedItem.signature r = SchemaItemWithSignature.signature d /\
      SchemaItem.name (SchemaDecodedItem.value r) = SchemaItemWithSignature.name d /\
      SchemaItem.type (SchemaDecodedItem.value r) = SchemaItemWithSignature.type d /\
      forall input,
        FunctionFragment_from
          ("func(" ++ SchemaItemWithSignature.signature d ++ ")") = Some [input] ->
        ParamType.components input = None ->
        exists v, nth_error values i = Some v /\
                  SchemaItem.value (SchemaDecodedItem.value r) = Raw v.
Proof.
  intros Henc Hdec Hshape.
  (* the encoding *)
  unfold encodeData in Henc.
  destruct (Nat.eqb (List.length params) (List.length (schema this)));
    simpl in Henc; [|discriminate].
  apply bind_Ok in Henc as (data & Hitems & Henc). apply call_Ok in Henc.
  exists data.
  (* the decoding returns *)
  assert (Hret : returns (mapM (decodeItem values) (entries (schema this)))).
  { apply mapM_returns, Forall_forall. intros [i d] Hin.
    apply In_nth_error in Hin as [n Hn].
    rewrite nth_error_entries in Hn.
    destruct (nth_error (schema this) n) as [d'|] eqn:Hd; [|discriminate].
    injection Hn as <- <-.
    destruct (Forall2_nth_error_l _ _ _ Hshape _ _ Hd) as (v & Hv & Hdv).
    eapply decodeItem_returns; eauto. }
  destruct Hret as [decoded Hdecoded].
  exists decoded.
  split; [exact Hitems|]. split; [exact Henc|]. split.
  { intros i d p x Hd Hp Hx.
    destruct (encodeItems_nth _ _ _ Hitems _ _ _ Hd Hp) as (v & Hv & Hnth).
    apply encodeItem_Ok in Hv as (_ & _ & Hv). congruence. }
  split.
  { unfold decodeData. rewrite Hdec. exact Hdecoded. }
  split.
  { apply mapM_length in Hdecoded. rewrite Hdecoded.
    unfold entries. rewrite length_combine, length_seq. apply Nat.min_id. }
  intros i d r Hd Hr.
  assert (He : nth_error (entries (schema this)) i = Some (i, d))
    by (rewrite nth_error_entries, Hd; reflexivity).
  destruct (mapM_nth _ _ _ Hdecoded _ _ He) as (r' & Hr' & Hitem).
  assert (r' = r) by congruence. subst r'.
  apply decodeItem_Ok in Hitem
    as (input & v & Hparse & Hv & Hwrap & Hn & Ht & Hs).
  destruct (wrap_envelope _ _ _ _ Hwrap) as (Hwn & Hwt & Hraw).
  repeat split; try assumption.
  intros input' Hparse' Hnone.
  assert (input' = input) by congruence. subst input'.
  exists v. auto.
Qed.

(** C6, amended. In [decodeData], for a field whose signature reads back
    with components (a tuple, an array of tuples) and whose decoded value
    has at least one element, names go by place in a filtered list, and
    the first element of the value tells which list. When it is no array,
    the value is taken for one tuple: its sub-values that are objects are
    taken out, and the k-th value left gets the name and type of the k-th
    component. When it is an array, every element of the value is taken
    for a tuple and labelled in that way: so it goes for an array of
    tuples, and for one tuple whose first component is an array, where the
    elements of the arrays are labelled and not the arrays. In a list so
    labelled a kept value at place j is labelled by component k <= j, and
    by an earlier one than its own as soon as an object precedes it; and
    the objects are not in the output. *)
Theorem tuple_labels_by_filtered_position
    (this : SchemaEncoder) (data : string)
    (decoded : list SchemaDecodedItem.t) (values : list Value) (i : nat)
    (d : SchemaItemWithSignature.t) (r : SchemaDecodedItem.t)
    (input : ParamType.t) (components : list ParamType.t) (value : Value) :
  decodeData this data = Ok decoded ->
  defaultAbiCoder_decode (signatures this) data = Some values ->
  nth_error (schema this) i = Some d ->
  nth_error decoded i = Some r ->
  nth_error values i = Some value ->
  FunctionFragment_from
    ("func(" ++ SchemaItemWithSignature.signature d ++ ")") = Some [input] ->
  ParamType.components input = Some components ->
  Val.length_positive value = true ->
  (Val.first_isArray value = false ->
   exists vs namedValue,
     Val.elements value = Some vs /\
     SchemaItem.value (SchemaDecodedItem.value r) = Named namedValue /\
     labelled components vs namedValue) /\
  (Val.first_isArray value = true ->
   exists vals namedValues,
     Val.elements value = Some vals /\
     SchemaItem.value (SchemaDecodedItem.value r) = NamedList namedValues /\
     Forall2
       (fun val namedValue =>
          exists vs, Val.elements val = Some vs /\
                     labelled components vs namedValue)
       vals namedValues).
Proof.
  intros Hdecoded Hvalues Hd Hr Hv Hparse Hcomponents Hpos.
  unfold decodeData in Hdecoded. rewrite Hvalues in Hdecoded. simpl in Hdecoded.
  assert (He : nth_error (entries (schema this)) i = Some (i, d))
    by (rewrite nth_error_entries, Hd; reflexivity).
  destruct (mapM_nth _ _ _ Hdecoded _ _ He) as (r' & Hr' & Hitem).
  assert (r' = r) by congruence. subst r'.
  apply decodeItem_Ok in Hitem as (input' & v & Hparse' & Hv' & Hwrap & _).
  assert (input' = input) by congruence. subst input'.
  assert (v = value) by congruence. subst v.
  rewrite Hcomponents in Hwrap.
  exact (wrap_labelled d components value _ Hwrap Hpos).
Qed.

End RoundTrip.

(** ** CIDs and digests *)

Lemma hex_byte (b : byte) :
  Hex.value (Hex.digit (Byte.to_N b / 16)) = Some (Byte.to_N b / 16)%N /\
  Hex.value (Hex.digit (Byte.to_N b mod 16)) = Some (Byte.to_N b mod 16)%N /\
  Hex.byte_of_N (16 * (Byte.to_N b / 16) + Byte.to_N b mod 16) = b.
Proof. destruct b; vm_compute; repeat split. Qed.

(** Reading back the hexadecimal text of bytes gives the bytes. *)
Lemma to_bytes_of_bytes (bs : list byte) : Hex.to_bytes (Hex.of_bytes bs) = bs.
Proof.
  induction bs as [|b bs IH]; [reflexivity|].
  destruct (hex_byte b) as (Hh & Hl & Hb).
  cbn [Hex.of_bytes Hex.to_bytes]. rewrite Hh, Hl, Hb, IH. reflexivity.
Qed.

Section Digest.

Context {ethers : Ethers} {multiformats : Multiformats}.

(** The multihash [decodeQmHash] builds around a digest. *)
Definition sha256_multihash (digest : list byte) : MultihashDigest.t :=
  {| MultihashDigest.digest := digest;
     MultihashDigest.code := 18;
     MultihashDigest.size := 32;
     MultihashDigest.bytes := x12 :: x20 :: digest |}.

(** C8. [decodeQmHash] reads the digest from the hexadecimal text behind
    the two-character prefix, builds the multihash of code 18 and size 32
    whose bytes are 18, 32 and the digest, and returns the text of the
    version 0 CID made of it. And for a text [hash] that parses to a CID
    whose multihash is of code 18 and size 32 with bytes 18, 32 and digest,
    and that is the version 0 text of that multihash, [encodeQmHash]
    returns and [decodeQmHash] gives [hash] back, the coder writing a
    [bytes32] as its hexadecimal text. *)
Theorem decodeQmHash_encodeQmHash :
  (forall bytes32,
     decodeQmHash bytes32 =
       CID_toString
         (CID_createV0 (sha256_multihash (Hex.to_bytes (JS.slice 2 bytes32))))) /\
  (forall digest,
     decodeQmHash (utils.hexlify digest) =
       CID_toString (CID_createV0 (sha256_multihash digest))) /\
  (forall hash a,
     CID_parse (VString hash) = Some a ->
     CID_multihash a = sha256_multihash (MultihashDigest.digest (CID_multihash a)) ->
     CID_toString (CID_createV0 (CID_multihash a)) = hash ->
     defaultAbiCoder_encode ["bytes32"]
       [VBytes (MultihashDigest.digest (CID_multihash a))]
       = Some (utils.hexlify (MultihashDigest.digest (CID_multihash a))) ->
     exists encoded,
       encodeQmHash hash = Ok encoded /\ decodeQmHash encoded = hash).
Proof.
  assert (Hd : forall digest,
             decodeQmHash (utils.hexlify digest) =
               CID_toString (CID_createV0 (sha256_multihash digest))).
  { intros digest. unfold decodeQmHash, utils.hexlify.
    cbn [JS.slice append]. rewrite to_bytes_of_bytes. reflexivity. }
  split; [reflexivity|]. split; [exact Hd|].
  intros hash a Hparse Hmh Htext Henc.
  exists (utils.hexlify (MultihashDigest.digest (CID_multihash a))). split.
  - unfold encodeQmHash. rewrite Hparse; simpl. rewrite Henc. reflexivity.
  - rewrite Hd, <- Hmh. exact Htext.
Qed.

End Digest.

(** ** The type check of [encodeData] *)

Lemma remove_whitespace_clean (s : string) (c : ascii) :
  JS.is_whitespace c = true -> StringFacts.mem c (JS.remove_whitespace s) = false.
Proof.
  intros Hc. induction s as [|d s IH]; simpl; [reflexivity|].
  destruct (JS.is_whitespace d) eqn:Hd; [exact IH|].
  simpl. rewrite IH, orb_false_r.
  destruct (Ascii.eqb_spec c d) as [->|_]; [congruence | reflexivity].
Qed.

Lemma mem_app (c : ascii) (a b : string) :
  StringFacts.mem c (a ++ b) = StringFacts.mem c a || StringFacts.mem c b.
Proof.
  induction a as [|d a IH]; simpl; [reflexivity|].
  rewrite IH, orb_assoc; reflexivity.
Qed.

(** The test [incompatible_type] is false exactly in three cases. *)
Lemma incompatible_type_spec
    (sanitizedType : string) (schemaItem : SchemaItemWithSignature.t) :
  incompatible_type sanitizedType schemaItem = false <->
  sanitizedType = SchemaItemWithSignature.type schemaItem \/
  sanitizedType = SchemaItemWithSignature.signature schemaItem \/
  (sanitizedType = "ipfsHash" /\
   SchemaItemWithSignature.type schemaItem = "bytes32").
Proof.
  unfold incompatible_type.
  destruct (String.eqb_spec sanitizedType (SchemaItemWithSignature.type schemaItem));
    simpl; [tauto|].
  destruct (String.eqb_spec sanitizedType (SchemaItemWithSignature.signature schemaItem));
    simpl; [tauto|].
  destruct (String.eqb_spec sanitizedType "ipfsHash"); simpl.
  - destruct (String.eqb_spec (SchemaItemWithSignature.type schemaItem) "bytes32");
      simpl; [tauto|].
    split; [discriminate | intros [?|[?|[_ ?]]]; contradiction].
  - split; [discriminate | intros [?|[?|[? _]]]; contradiction].
Qed.

(** The signature of a named field holds a space, and the sanitized type
    holds none: the second case of the check never applies to it. *)
Lemma named_signature_never_matches (paramType : ParamType.t) (type : string) :
  truthy (ParamType.name paramType) = true ->
  JS.remove_whitespace type <>
    SchemaItemWithSignature.signature (schemaItemOf paramType).
Proof.
  intros Hname Heq.
  assert (Hsp : StringFacts.mem " "
                  (SchemaItemWithSignature.signature (schemaItemOf paramType)) = true).
  { unfold schemaItemOf.
    destruct paramType as [name ty components]; simpl in *. rewrite Hname.
    destruct (ty =? TUPLE_TYPE); simpl.
    { rewrite !mem_app; simpl. rewrite !orb_true_r; reflexivity. }
    destruct (ty =? TUPLE_ARRAY_TYPE); simpl.
    { rewrite !mem_app; simpl. rewrite !orb_true_r; reflexivity. }
    destruct (JS.includes ty "[]"); simpl;
      rewrite !mem_app; simpl; rewrite !orb_true_r; reflexivity. }
  rewrite <- Heq, remove_whitespace_clean in Hsp by reflexivity.
  discriminate.
Qed.

(** ** The signature alternative of the type check *)

Lemma Name_eqb_eq (a b : Name) : Name_eqb a b = true <-> a = b.
Proof.
  destruct a as [x|], b as [y|]; simpl; split; intros H;
    try discriminate; try reflexivity.
  - apply String.eqb_eq in H; congruence.
  - injection H as ->; apply String.eqb_refl.
Qed.

Lemma append_nil_r (s : string) : s ++ "" = s.
Proof. induction s; simpl; congruence. Qed.

(** The text of one component in [componentsFullType]. *)
Definition fullTypeOf (c : ParamType.t) : string :=
  if truthy (ParamType.name c)
  then ParamType.type c ++ " " ++ text (ParamType.name c)
  else ParamType.type c.

Lemma join_cons (sep x y : string) (l : list string) :
  JS.join sep (x :: y :: l) = x ++ sep ++ JS.join sep (y :: l).
Proof. reflexivity. Qed.

(** Either no component has a name, and the full types are the types, or
    the joined full types hold a space. *)
Lemma full_types_plain_or_spaced (components : list ParamType.t) :
  map fullTypeOf components = map ParamType.type components \/
  StringFacts.mem " " (JS.join "," (map fullTypeOf components)) = true.
Proof.
  induction components as [|c cs IH]; [left; reflexivity|].
  assert (Hhead : forall x l,
             StringFacts.mem " " x = true ->
             StringFacts.mem " " (JS.join "," (x :: l)) = true).
  { intros x [|y l] H; [exact H|].
    rewrite join_cons, mem_app, H; reflexivity. }
  cbn [map].
  destruct (truthy (ParamType.name c)) eqn:Hc.
  - right. apply Hhead. unfold fullTypeOf. rewrite Hc.
    rewrite !mem_app; simpl. rewrite orb_true_r; reflexivity.
  - assert (Hplain : fullTypeOf c = ParamType.type c)
      by (unfold fullTypeOf; rewrite Hc; reflexivity).
    rewrite Hplain.
    destruct IH as [IH|IH].
    + left. rewrite IH. reflexivity.
    + right. destruct (map fullTypeOf cs) as [|y l]; [discriminate IH|].
      rewrite join_cons, !mem_app, IH, !orb_true_r. reflexivity.
Qed.

(** The signature of a descriptor is its canonical type, or else holds a
    space. *)
Lemma signature_plain_or_spaced (paramType : ParamType.t) :
  SchemaItemWithSignature.signature (schemaItemOf paramType) =
    SchemaItemWithSignature.type (schemaItemOf paramType) \/
  StringFacts.mem " "
    (SchemaItemWithSignature.signature (schemaItemOf paramType)) = true.
Proof.
  destruct paramType as [name ty components].
  unfold schemaItemOf.
  cbn [ParamType.name ParamType.type ParamType.components].
  change (map (fun c => if truthy (ParamType.name c)
                        then ParamType.type c ++ " " ++ text (ParamType.name c)
                        else ParamType.type c))
    with (map fullTypeOf).
  set (cs := match components with Some cs => cs | None => [] end).
  destruct (truthy name) eqn:Hname.
  - right.
    destruct (ty =? TUPLE_TYPE); simpl.
    { rewrite !mem_app; simpl. rewrite !orb_true_r; reflexivity. }
    destruct (ty =? TUPLE_ARRAY_TYPE); simpl.
    { rewrite !mem_app; simpl. rewrite !orb_true_r; reflexivity. }
    destruct (JS.includes ty "[]"); simpl;
      rewrite !mem_app; simpl; rewrite !orb_true_r; reflexivity.
  - destruct (ty =? TUPLE_TYPE); simpl.
    { destruct (full_types_plain_or_spaced cs) as [H|H].
      - left. rewrite H, append_nil_r. reflexivity.
      - right. rewrite !mem_app, H. reflexivity. }
    destruct (ty =? TUPLE_ARRAY_TYPE); simpl.
    { destruct (full_types_plain_or_spaced cs) as [H|H].
      - left. rewrite H. reflexivity.
      - right. rewrite !mem_app, H. reflexivity. }
    destruct (JS.includes ty "[]"); left; reflexivity.
Qed.

(** X3. For a descriptor built by the constructor, the signature
    alternative of the type check of [encodeData] accepts nothing that the
    canonical type does not: a caller's type that, once its whitespace is
    removed, equals the signature equals the canonical type as well (the
    signature then has no name in it). So the check lets a field through
    exactly when the sanitized type is the canonical type, or is [ipfsHash]
    for a [bytes32] field. *)
Theorem signature_alternative_redundant
    (paramType : ParamType.t) (type : string) :
  (JS.remove_whitespace type =
     SchemaItemWithSignature.signature (schemaItemOf paramType) ->
   JS.remove_whitespace type =
     SchemaItemWithSignature.type (schemaItemOf paramType)) /\
  (incompatible_type (JS.remove_whitespace type) (schemaItemOf paramType) = false <->
   JS.remove_whitespace type =
     SchemaItemWithSignature.type (schemaItemOf paramType) \/
   (JS.remove_whitespace type = "ipfsHash" /\
    SchemaItemWithSignature.type (schemaItemOf paramType) = "bytes32")).
Proof.
  assert (Hsig : JS.remove_whitespace type =
                   SchemaItemWithSignature.signature (schemaItemOf paramType) ->
                 JS.remove_whitespace type =
                   SchemaItemWithSignature.type (schemaItemOf paramType)).
  { intros Heq.
    destruct (signature_plain_or_spaced paramType) as [H|H]; [congruence|].
    rewrite <- Heq, remove_whitespace_clean in H by reflexivity.
    discriminate. }
  split; [exact Hsig|].
  unfold incompatible_type.
  destruct (String.eqb_spec (JS.remove_whitespace type)
              (SchemaItemWithSignature.type (schemaItemOf paramType)));
    simpl; [tauto|].
  destruct (String.eqb_spec (JS.remove_whitespace type)
              (SchemaItemWithSignature.signature (schemaItemOf paramType)));
    simpl; [tauto|].
  destruct (String.eqb_spec (JS.remove_whitespace type) "ipfsHash"); simpl.
  - destruct (String.eqb_spec
                (SchemaItemWithSignature.type (schemaItemOf paramType)) "bytes32");
      simpl; [tauto|].
    split; [discriminate | intros [?|[_ ?]]; contradiction].
  - split; [discriminate | intros [?|[? _]]; contradiction].
Qed.

(** ** What [encodeData] accepts, and what it reports *)

Section Encoding.

Context {ethers : Ethers} {multiformats : Multiformats}.

(** One turn of the loop of [encodeData] gets through: the type check and
    the name check are passed, and the expression pushed on [data]
    evaluates to [v]. *)
Definition accepts
    (schemaItem : SchemaItemWithSignature.t) (param : SchemaItem.t Value)
    (v : Value) : Prop :=
  incompatible_type (JS.remove_whitespace (SchemaItem.type param)) schemaItem = false /\
  SchemaItem.name param = SchemaItemWithSignature.name schemaItem /\
  dataOf schemaItem (SchemaItem.value param) = Ok v.

Lemma encodeItem_accepts
    (schemaItem : SchemaItemWithSignature.t) (param : SchemaItem.t Value) (v : Value) :
  encodeItem schemaItem param = Ok v <-> accepts schemaItem param v.
Proof.
  split; [apply encodeItem_Ok|].
  intros (Ht & Hn & Hv). unfold encodeItem. rewrite Ht.
  apply Name_eqb_eq in Hn. rewrite Hn. exact Hv.
Qed.

Lemma encodeItems_accepts (items : list SchemaItemWithSignature.t) :
  forall (params : list (SchemaItem.t Value)) (data : list Value),
    List.length params = List.length items ->
    (encodeItems items params = Ok data <->
     Forall2 (fun entry v => accepts (fst entry) (snd entry) v)
       (combine items params) data).
Proof.
  induction items as [|d items IH]; intros [|p params] data Hlen;
    try discriminate Hlen; simpl.
  - split; intros H; [injection H as <-; constructor | inversion H; reflexivity].
  - injection Hlen as Hlen. split; intros H.
    + apply bind_Ok in H as (v & Hv & H).
      apply bind_Ok in H as (vs & Hvs & H). injection H as <-.
      constructor; [apply encodeItem_accepts; exact Hv | apply IH; assumption].
    + inversion H as [|entry v l vs Hv Hvs]; subst.
      apply encodeItem_accepts in Hv. apply IH in Hvs; [|assumption].
      simpl in Hv. rewrite Hv, Hvs. reflexivity.
Qed.

(** X4. [encodeData] returns bytes exactly when the list has as many fields
    as the schema, every field in turn passes the type check and the name
    check against the descriptor at its place, the values pushed on [data]
    all evaluate, and the coder encodes [data] under the signatures into
    those bytes. *)
Theorem encodeData_returns_iff
    (this : SchemaEncoder) (params : list (SchemaItem.t Value)) (bytes : string) :
  encodeData this params = Ok bytes <->
  List.length params = List.length (schema this) /\
  exists data,
    Forall2 (fun entry v => accepts (fst entry) (snd entry) v)
      (combine (schema this) params) data /\
    defaultAbiCoder_encode (signatures this) data = Some bytes.
Proof.
  unfold encodeData.
  destruct (Nat.eqb_spec (List.length params) (List.length (schema this)))
    as [Hlen|Hlen]; simpl.
  - split.
    + intros H. apply bind_Ok in H as (data & Hitems & H).
      split; [exact Hlen|]. exists data.
      split; [apply encodeItems_accepts; assumption | apply call_Ok in H; exact H].
    + intros (_ & data & Hitems & H).
      apply encodeItems_accepts in Hitems; [|assumption].
      rewrite Hitems; simpl. rewrite H. reflexivity.
  - split; [discriminate | intros [H _]; contradiction].
Qed.

Lemma encodeItems_first_throw (items : list SchemaItemWithSignature.t) :
  forall (params : list (SchemaItem.t Value)) (i : nat)
         (schemaItem : SchemaItemWithSignature.t) (param : SchemaItem.t Value)
         (e : Error),
    nth_error items i = Some schemaItem ->
    nth_error params i = Some param ->
    (forall j d p,
       j < i -> nth_error items j = Some d -> nth_error params j = Some p ->
       returns (encodeItem d p)) ->
    encodeItem schemaItem param = Throw e ->
    encodeItems items params = Throw e.
Proof.
  induction items as [|d0 items IH]; intros params i schemaItem param e Hd Hp Hbefore He.
  - destruct i; discriminate.
  - destruct params as [|p0 params]; [destruct i; discriminate|].
    destruct i as [|i]; simpl in Hd, Hp |- *.
    + injection Hd as ->; injection Hp as ->. rewrite He. reflexivity.
    + destruct (Hbefore 0 d0 p0) as [v Hv]; [lia | reflexivity | reflexivity |].
      rewrite Hv; simpl.
      rewrite (IH params i schemaItem param e Hd Hp); [reflexivity | | exact He].
      intros j d p Hj Hdj Hpj. apply (Hbefore (S j) d p); [lia | exact Hdj | exact Hpj].
Qed.

(** X5. [encodeData] stops at the first field that fails, and within a
    field checks the type before the name and the name before it touches
    the value. With the fields before place i let through: a type that
    does not fit descriptor i gives the incompatible-type error with the
    sanitized type, whatever the name and the value are; a fitting type
    with another name than the descriptor's gives the incompatible-name
    error with the caller's name; and with both checks passed an error of
    the transformation of the value is the error of [encodeData]. Nothing
    after place i is looked at, and the coder is not called. *)
Theorem encodeData_first_failure
    (this : SchemaEncoder) (params : list (SchemaItem.t Value)) (i : nat)
    (schemaItem : SchemaItemWithSignature.t) (param : SchemaItem.t Value) :
  List.length params = List.length (schema this) ->
  nth_error (schema this) i = Some schemaItem ->
  nth_error params i = Some param ->
  (forall j d p,
     j < i -> nth_error (schema this) j = Some d -> nth_error params j = Some p ->
     returns (encodeItem d p)) ->
  (incompatible_type (JS.remove_whitespace (SchemaItem.type param)) schemaItem = true ->
   encodeData this params =
     Throw (IncompatibleParamType (JS.remove_whitespace (SchemaItem.type param)))) /\
  (incompatible_type (JS.remove_whitespace (SchemaItem.type param)) schemaItem = false ->
   SchemaItem.name param <> SchemaItemWithSignature.name schemaItem ->
   encodeData this params =
     Throw (IncompatibleParamName (text (SchemaItem.name param)))) /\
  (incompatible_type (JS.remove_whitespace (SchemaItem.type param)) schemaItem = false ->
   SchemaItem.name param = SchemaItemWithSignature.name schemaItem ->
   forall e, dataOf schemaItem (SchemaItem.value param) = Throw e ->
             encodeData this params = Throw e).
Proof.
  intros Hlen Hd Hp Hbefore.
  assert (Hthrow : forall e, encodeItem schemaItem param = Throw e ->
                             encodeData this params = Throw e).
  { intros e He. unfold encodeData. rewrite Hlen, Nat.eqb_refl; simpl.
    rewrite (encodeItems_first_throw _ _ _ _ _ _ Hd Hp Hbefore He). reflexivity. }
  split; [|split].
  - intros Ht. apply Hthrow. unfold encodeItem. rewrite Ht. reflexivity.
  - intros Ht Hn. apply Hthrow. unfold encodeItem. rewrite Ht.
    destruct (Name_eqb (SchemaItem.name param)
                (SchemaItemWithSignature.name schemaItem)) eqn:Hb; [|reflexivity].
    apply Name_eqb_eq in Hb. contradiction.
  - intros Ht Hn e He. apply Hthrow. unfold encodeItem. rewrite Ht.
    apply Name_eqb_eq in Hn. rewrite Hn. exact He.
Qed.

(** *** Whitespace in the caller's types *)

(** Two fields that differ by the whitespace of their types only. *)
Definition same_but_whitespace (p q : SchemaItem.t Value) : Prop :=
  SchemaItem.name p = SchemaItem.name q /\
  SchemaItem.value p = SchemaItem.value q /\
  JS.remove_whitespace (SchemaItem.type p) = JS.remove_whitespace (SchemaItem.type q).

Lemma encodeItem_whitespace
    (schemaItem : SchemaItemWithSignature.t) (p q : SchemaItem.t Value) :
  same_but_whitespace p q -> encodeItem schemaItem p = encodeItem schemaItem q.
Proof.
  intros (Hn & Hv & Ht). unfold encodeItem. rewrite Hn, Hv, Ht. reflexivity.
Qed.

(** X6. The whitespace of the caller's types has no bearing on
    [encodeData]: two lists whose fields have, place by place, the same
    name, the same value and types that are equal once their whitespace is
    removed have the same outcome, the same bytes or the same error with
    the same message. *)
Theorem encodeData_whitespace_insensitive
    (this : SchemaEncoder) (params params' : list (SchemaItem.t Value)) :
  Forall2 same_but_whitespace params params' ->
  encodeData this params = encodeData this params'.
Proof.
  intros H. unfold encodeData.
  rewrite <- (Forall2_length H).
  destruct (Nat.eqb (List.length params) (List.length (schema this)));
    simpl; [|reflexivity].
  replace (encodeItems (schema this) params')
    with (encodeItems (schema this) params); [reflexivity|].
  generalize (schema this) as items.
  induction H as [|p q params params' Hpq _ IH]; intros [|d items];
    try reflexivity.
  simpl. rewrite (encodeItem_whitespace d p q Hpq), IH. reflexivity.
Qed.

(** *** The values handed to the coder *)

Lemma all_digits_of_bytes (bs : list byte) :
  Hex.all_digits (Hex.of_bytes bs) = true.
Proof.
  induction bs as [|b bs IH]; [reflexivity|].
  destruct (hex_byte b) as (Hh & Hl & _).
  cbn [Hex.of_bytes Hex.all_digits]. unfold Hex.is_digit.
  rewrite Hh, Hl, IH. reflexivity.
Qed.

Lemma of_bytes_length (bs : list byte) :
  String.length (Hex.of_bytes bs) = 2 * List.length bs.
Proof. induction bs as [|b bs IH]; simpl; [reflexivity | rewrite IH; lia]. Qed.

Lemma hexlify_length (bs : list byte) :
  String.length (utils.hexlify bs) = 2 + 2 * List.length bs.
Proof. unfold utils.hexlify. simpl. rewrite of_bytes_length. reflexivity. Qed.

Lemma isBytesLike_hexlify (bs : list byte) :
  utils.isBytesLike (VString (utils.hexlify bs)) = true.
Proof.
  unfold utils.isBytesLike. rewrite hexlify_length.
  unfold utils.isHexString, utils.hexlify. cbn [append].
  rewrite all_digits_of_bytes.
  change (2 + 2 * List.length bs) with (S (S (2 * List.length bs))).
  cbn [Nat.even]. rewrite Nat.even_even. reflexivity.
Qed.

(** What [formatBytes32String] returns is the text of 32 bytes. *)
Lemma formatBytes32String_Ok (text : Value) (s : string) :
  utils.formatBytes32String text = Ok s ->
  exists bs, s = utils.hexlify bs /\ List.length bs = 32.
Proof.
  unfold utils.formatBytes32String. intros H.
  apply bind_Ok in H as (bytes & _ & H).
  destruct (Nat.ltb_spec 31 (List.length bytes)) as [|Hle]; [discriminate|].
  injection H as <-.
  exists (firstn 32 (bytes ++ repeat x00 32)). split; [reflexivity|].
  rewrite length_firstn, length_app, repeat_length. lia.
Qed.

(** X7. Outside the content-hash branch the value [encodeData] pushes on
    [data] for a field is the caller's value itself, unless the descriptor
    is of type [bytes32] and the value a string that is not byte-like; in
    that one case it is a byte-like text of 66 characters, [0x] and the 64
    digits of 32 bytes. The value pushed is a fixed point: given it in
    place of the caller's value, [encodeData] pushes it unchanged. *)
Theorem dataOf_transforms_bytes32_strings_only
    (schemaItem : SchemaItemWithSignature.t) (value x : Value) :
  ipfsHash_field schemaItem = false ->
  dataOf schemaItem value = Ok x ->
  (SchemaItemWithSignature.type schemaItem <> "bytes32" \/
   Val.is_string value = false \/ utils.isBytesLike value = true ->
   x = value) /\
  (SchemaItemWithSignature.type schemaItem = "bytes32" ->
   Val.is_string value = true -> utils.isBytesLike value = false ->
   exists s, x = VString s /\ String.length s = 66 /\
             utils.isBytesLike x = true) /\
  dataOf schemaItem x = Ok x.
Proof.
  intros Hf H. unfold dataOf in *. rewrite Hf in *.
  destruct (String.eqb_spec (SchemaItemWithSignature.type schemaItem) "bytes32")
    as [Hty|Hty]; simpl in *.
  - destruct (Val.is_string value) eqn:Hs, (utils.isBytesLike value) eqn:Hb;
      simpl in *.
    + injection H as <-. rewrite Hs, Hb. simpl.
      split; [reflexivity|]. split; [discriminate | reflexivity].
    + apply bind_Ok in H as (s & Hfmt & H). injection H as <-.
      apply formatBytes32String_Ok in Hfmt as (bs & -> & Hlen).
      rewrite isBytesLike_hexlify. simpl.
      split; [intros [?|[?|?]]; [contradiction | discriminate | discriminate]|].
      split; [|reflexivity].
      intros _ _ _. eexists; split; [reflexivity|].
      rewrite hexlify_length, Hlen. split; reflexivity.
    + injection H as <-. rewrite Hs. simpl.
      split; [reflexivity|]. split; [discriminate | reflexivity].
    + injection H as <-. rewrite Hs. simpl.
      split; [reflexivity|]. split; [discriminate | reflexivity].
  - injection H as <-.
    split; [reflexivity|]. split; [contradiction | reflexivity].
Qed.

End Encoding.

(** ** The constructor and the [ipfsHash] pseudo-type *)

Lemma replace_all_from_absent (s pat rep : string) :
  JS.includes s pat = false -> JS.replace_all_from 0 s pat rep = s.
Proof.
  induction s as [|c s IH]; [reflexivity|].
  rewrite StringFacts.includes_unfold. intros H.
  apply orb_false_iff in H as [Hp Hs].
  cbn [JS.replace_all_from]. rewrite Hp, (IH Hs). reflexivity.
Qed.

Section Alias.

Context {ethers : Ethers}.

(** X8. In a schema text [ipfsHash] is a mere spelling of [bytes32]: a text
    without [ipfsHash] is parsed as it stands, and the constructor has the
    same outcome, the same encoder or the same error, on a schema text and
    on that text with every [ipfsHash] written [bytes32]. The encoder
    built keeps no trace of which fields were written [ipfsHash]. *)
Theorem constructor_ipfsHash_alias (schemaText : string) :
  (JS.includes schemaText "ipfsHash" = false ->
   JS.replace_all schemaText "ipfsHash" "bytes32" = schemaText) /\
  constructor (JS.replace_all schemaText "ipfsHash" "bytes32") =
    constructor schemaText.
Proof.
  split; [apply replace_all_from_absent|].
  unfold constructor.
  replace (JS.replace_all (JS.replace_all schemaText "ipfsHash" "bytes32")
             "ipfsHash" "bytes32")
    with (JS.replace_all schemaText "ipfsHash" "bytes32"); [reflexivity|].
  symmetry. apply replace_all_from_absent, StringFacts.fixedSchema_clean.
Qed.

End Alias.

(** ** The content-hash helpers *)

Section ContentHashHelpers.

Context {ethers : Ethers} {multiformats : Multiformats}.

(** X9. [decodeIpfsValue], through the public functions. On a string that
    is not byte-like it returns what [encodeQmHash] returns whenever
    [encodeQmHash] returns, and otherwise, whether the string is no CID or
    the coder turns the digest down, it is [encodeBytes32Value] of the
    string. On a byte-like value [CID.parse] is not consulted; and
    [encodeBytes32Value] gives back the value itself, not its encoding,
    when the coder takes it for a [bytes32]. *)
Theorem decodeIpfsValue_encodeQmHash (hash : string) :
  (utils.isBytesLike (VString hash) = false ->
   forall encoded, encodeQmHash hash = Ok encoded ->
                   decodeIpfsValue (VString hash) = Ok (VString encoded)) /\
  (utils.isBytesLike (VString hash) = false ->
   throws (encodeQmHash hash) ->
   decodeIpfsValue (VString hash) = encodeBytes32Value (VString hash)) /\
  (utils.isBytesLike (VString hash) = true ->
   decodeIpfsValue (VString hash) = encodeBytes32Value (VString hash)) /\
  (forall encoded,
     defaultAbiCoder_encode ["bytes32"] [VString hash] = Some encoded ->
     encodeBytes32Value (VString hash) = Ok (VString hash)).
Proof.
  unfold decodeIpfsValue, encodeQmHash, encodeBytes32Value.
  repeat split.
  - intros Hb encoded H. rewrite Hb.
    apply bind_Ok in H as (a & Ha & H). rewrite Ha; simpl.
    rewrite H. reflexivity.
  - intros Hb [e H]. rewrite Hb.
    destruct (CID_parse (VString hash)) as [a|]; simpl in *; [|reflexivity].
    rewrite H. reflexivity.
  - intros Hb. rewrite Hb. reflexivity.
  - intros encoded H. rewrite H. reflexivity.
Qed.

(** X10. [isCID] never throws and answers [true] exactly when [CID.parse]
    takes the text. [encodeQmHash] returns only on texts [isCID] answers
    [true] on; on the others it throws the error of the CID library; and
    on a text [isCID] accepts it can still throw, then with the coder's
    error (the digest is no [bytes32]). *)
Theorem isCID_encodeQmHash (cid : string) :
  ~ throws (isCID cid) /\
  (isCID cid = Ok true <-> exists a, CID_parse (VString cid) = Some a) /\
  (returns (encodeQmHash cid) -> isCID cid = Ok true) /\
  (isCID cid = Ok false ->
   encodeQmHash cid = Throw (LibraryError LibMultiformats)) /\
  (isCID cid = Ok true ->
   forall e, encodeQmHash cid = Throw e -> e = LibraryError LibEthers).
Proof.
  unfold isCID, encodeQmHash.
  destruct (CID_parse (VString cid)) as [a|]; simpl;
    (split; [intros [e H]; discriminate|]);
    (split; [split|split; [|split]]).
  - intros _. exists a. reflexivity.
  - reflexivity.
  - reflexivity.
  - discriminate.
  - intros _ e H.
    destruct (defaultAbiCoder_encode _ _); simpl in H; congruence.
  - discriminate.
  - intros [a H]; discriminate.
  - intros [x H]; discriminate.
  - reflexivity.
  - discriminate.
Qed.

End ContentHashHelpers.

(** ** The records of [decodeData] *)

Lemma wrap_not_positive
    (s : SchemaItemWithSignature.t) (components : option (list ParamType.t))
    (value : Value) :
  Val.length_positive value = false ->
  wrap s components value =
    Ok (SchemaItem.Build (SchemaItemWithSignature.name s)
          (SchemaItemWithSignature.type s) (Raw value)).
Proof.
  intros H. unfold wrap. rewrite H. destruct components; reflexivity.
Qed.

Section Records.

Context {ethers : Ethers} {multiformats : Multiformats}.

(** X11. Whatever bytes [decodeData] returns on, the coder decoded them
    into at least one value per field, and the result has one record per
    descriptor, in the order of the schema: record i carries the name, the
    canonical type and the signature of descriptor i, its envelope the
    name and the type again, the signature of the descriptor reads back as
    one parameter, and the envelope holds the i-th decoded value as it
    came when that parameter has no components or the value has no
    positive length (a number, a boolean, an empty sequence). *)
Theorem decodeData_records
    (this : SchemaEncoder) (data : string) (decoded : list SchemaDecodedItem.t) :
  decodeData this data = Ok decoded ->
  exists values,
    defaultAbiCoder_decode (signatures this) data = Some values /\
    List.length (schema this) <= List.length values /\
    List.length decoded = List.length (schema this) /\
    forall i d,
      nth_error (schema this) i = Some d ->
      exists r input v,
        nth_error decoded i = Some r /\
        SchemaDecodedItem.name r = SchemaItemWithSignature.name d /\
        SchemaDecodedItem.type r = SchemaItemWithSignature.type d /\
        SchemaDecodedItem.signature r = SchemaItemWithSignature.signature d /\
        SchemaItem.name (SchemaDecodedItem.value r) = SchemaItemWithSignature.name d /\
        SchemaItem.type (SchemaDecodedItem.value r) = SchemaItemWithSignature.type d /\
        FunctionFragment_from
          ("func(" ++ SchemaItemWithSignature.signature d ++ ")") = Some [input] /\
        nth_error values i = Some v /\
        (ParamType.components input = None \/ Val.length_positive v = false ->
         SchemaItem.value (SchemaDecodedItem.value r) = Raw v).
Proof.
  unfold decodeData. intros H.
  apply bind_Ok in H as (values & Hvalues & H). apply call_Ok in Hvalues.
  exists values. split; [exact Hvalues|].
  assert (Hfield : forall i d,
            nth_error (schema this) i = Some d ->
            exists r input v,
              nth_error decoded i = Some r /\
              SchemaDecodedItem.name r = SchemaItemWithSignature.name d /\
              SchemaDecodedItem.type r = SchemaItemWithSignature.type d /\
              SchemaDecodedItem.signature r = SchemaItemWithSignature.signature d /\
              SchemaItem.name (SchemaDecodedItem.value r) = SchemaItemWithSignature.name d /\
              SchemaItem.type (SchemaDecodedItem.value r) = SchemaItemWithSignature.type d /\
              FunctionFragment_from
                ("func(" ++ SchemaItemWithSignature.signature d ++ ")") = Some [input] /\
              nth_error values i = Some v /\
              (ParamType.components input = None \/ Val.length_positive v = false ->
               SchemaItem.value (SchemaDecodedItem.value r) = Raw v)).
  { intros i d Hd.
    assert (He : nth_error (entries (schema this)) i = Some (i, d))
      by (rewrite nth_error_entries, Hd; reflexivity).
    destruct (mapM_nth _ _ _ H _ _ He) as (r & Hr & Hitem).
    apply decodeItem_Ok in Hitem
      as (input & v & Hparse & Hv & Hwrap & Hn & Ht & Hs).
    destruct (wrap_envelope _ _ _ _ Hwrap) as (Hwn & Hwt & Hraw).
    exists r, input, v. repeat split; try assumption.
    intros [Hnone|Hpos]; [exact (Hraw Hnone)|].
    rewrite wrap_not_positive in Hwrap by exact Hpos.
    injection Hwrap as <-. reflexivity. }
  split; [|split; [|exact Hfield]].
  - destruct (Nat.le_gt_cases (List.length (schema this)) (List.length values))
      as [Hle|Hgt]; [exact Hle|exfalso].
    destruct (nth_error (schema this) (List.length values)) as [d|] eqn:Hd.
    + destruct (Hfield _ _ Hd) as (_ & _ & v & _ & _ & _ & _ & _ & _ & _ & Hv & _).
      assert (Hnone : nth_error values (List.length values) = None)
        by (apply nth_error_None; lia).
      congruence.
    + apply nth_error_None in Hd. lia.
  - apply mapM_length in H. rewrite H.
    unfold entries. rewrite length_combine, length_seq. apply Nat.min_id.
Qed.

End Records.

(** ** Tuples of primitive values *)

Lemma filter_all {A} (f : A -> bool) (l : list A) :
  forallb f l = true -> filter f l = l.
Proof.
  induction l as [|x l IH]; simpl; [reflexivity|].
  intros H. apply andb_true_iff in H as [Hx Hl].
  rewrite Hx, IH by assumption. reflexivity.
Qed.

Lemma forallb_firstn {A} (f : A -> bool) (l : list A) (n : nat) :
  forallb f l = true -> forallb f (firstn n l) = true.
Proof.
  revert n; induction l as [|x l IH]; intros [|n] H; simpl in *;
    try reflexivity.
  apply andb_true_iff in H as [Hx Hl]. rewrite Hx, IH by assumption. reflexivity.
Qed.

(** With no object among the sub-values the filter keeps them all, and
    every value is labelled by the component at its own place. *)
Definition labelled_in_place
    (components : list ParamType.t) (vs : list Value)
    (namedValue : list (SchemaItem.t Value)) : Prop :=
  List.length namedValue = List.length vs /\
  List.length vs <= List.length components /\
  forall j v,
    nth_error vs j = Some v ->
    exists component,
      nth_error components j = Some component /\
      nth_error namedValue j =
        Some (SchemaItem.Build (ParamType.name component)
                (ParamType.type component) v).

Lemma labelled_primitives
    (components : list ParamType.t) (vs : list Value)
    (namedValue : list (SchemaItem.t Value)) :
  labelled components vs namedValue ->
  forallb Val.not_object vs = true ->
  labelled_in_place components vs namedValue.
Proof.
  intros (Hmap & _ & _ & Hplace) Hall.
  rewrite (filter_all _ _ Hall) in Hmap.
  assert (Hlen : List.length namedValue = List.length vs)
    by (rewrite <- Hmap, length_map; reflexivity).
  assert (Hnth : forall j v,
            nth_error vs j = Some v ->
            exists component,
              nth_error components j = Some component /\
              nth_error namedValue j =
                Some (SchemaItem.Build (ParamType.name component)
                        (ParamType.type component) v)).
  { intros j v Hj.
    assert (Hv : Val.not_object v = true).
    { rewrite forallb_forall in Hall. apply Hall.
      eapply nth_error_In; exact Hj. }
    destruct (Hplace j v Hj Hv) as (_ & _ & c & Hc & Hn).
    rewrite (filter_all _ _ (forallb_firstn _ _ j Hall)) in Hc, Hn.
    assert (Hjlt : j < List.length vs)
      by (apply nth_error_Some; congruence).
    rewrite firstn_length_le in Hc, Hn by lia.
    exists c. split; assumption. }
  split; [exact Hlen|]. split; [|exact Hnth].
  destruct (Nat.le_gt_cases (List.length vs) (List.length components))
    as [Hle|Hgt]; [exact Hle|exfalso].
  destruct (nth_error vs (List.length components)) as [v|] eqn:Hv.
  - destruct (Hnth _ _ Hv) as (c & Hc & _).
    assert (Hnone : nth_error components (List.length components) = None)
      by (apply nth_error_None; lia).
    congruence.
  - apply nth_error_None in Hv. lia.
Qed.

Section Primitives.

Context {ethers : Ethers} {multiformats : Multiformats}.

(** X12. In [decodeData], for a field whose signature reads back with
    components and whose decoded value has at least one element: when no
    sub-value of a tuple is an object (booleans, numbers and strings
    only), nothing is filtered out, the tuple has no more values than
    there are components, and each value carries the name and the type of
    the component at its own place. This holds for the value itself when
    its first element is no array, and for every one of its elements when
    it is. *)
Theorem tuple_of_primitives_labelled_in_place
    (this : SchemaEncoder) (data : string)
    (decoded : list SchemaDecodedItem.t) (values : list Value) (i : nat)
    (d : SchemaItemWithSignature.t) (r : SchemaDecodedItem.t)
    (input : ParamType.t) (components : list ParamType.t) (value : Value) :
  decodeData this data = Ok decoded ->
  defaultAbiCoder_decode (signatures this) data = Some values ->
  nth_error (schema this) i = Some d ->
  nth_error decoded i = Some r ->
  nth_error values i = Some value ->
  FunctionFragment_from
    ("func(" ++ SchemaItemWithSignature.signature d ++ ")") = Some [input] ->
  ParamType.components input = Some components ->
  Val.length_positive value = true ->
  (Val.first_isArray value = false ->
   forall vs,
     Val.elements value = Some vs ->
     forallb Val.not_object vs = true ->
     exists namedValue,
       SchemaItem.value (SchemaDecodedItem.value r) = Named namedValue /\
       labelled_in_place components vs namedValue) /\
  (Val.first_isArray value = true ->
   forall vals,
     Val.elements value = Some vals ->
     Forall (fun val => exists vs, Val.elements val = Some vs /\
                                   forallb Val.not_object vs = true) vals ->
     exists namedValues,
       SchemaItem.value (SchemaDecodedItem.value r) = NamedList namedValues /\
       Forall2
         (fun val namedValue =>
            exists vs, Val.elements val = Some vs /\
                       labelled_in_place components vs namedValue)
         vals namedValues).
Proof.
  intros Hdecoded Hvalues Hd Hr Hv Hparse Hcomponents Hpos.
  unfold decodeData in Hdecoded. rewrite Hvalues in Hdecoded. simpl in Hdecoded.
  assert (He : nth_error (entries (schema this)) i = Some (i, d))
    by (rewrite nth_error_entries, Hd; reflexivity).
  destruct (mapM_nth _ _ _ Hdecoded _ _ He) as (r' & Hr' & Hitem).
  assert (r' = r) by congruence. subst r'.
  apply decodeItem_Ok in Hitem as (input' & v & Hparse' & Hv' & Hwrap & _).
  assert (input' = input) by congruence. subst input'.
  assert (v = value) by congruence. subst v.
  rewrite Hcomponents in Hwrap.
  destruct (wrap_labelled d components value _ Hwrap Hpos) as [Htuple Harray].
  split.
  - intros Hfirst vs Hvs Hall.
    destruct (Htuple Hfirst) as (vs' & namedValue & Hvs' & Hnamed & Hl).
    assert (vs' = vs) by congruence. subst vs'.
    exists namedValue. split; [exact Hnamed|].
    apply labelled_primitives; assumption.
  - intros Hfirst vals Hvals Hall.
    destruct (Harray Hfirst) as (vals' & namedValues & Hvals' & Hnamed & Hl).
    assert (vals' = vals) by congruence. subst vals'.
    exists namedValues. split; [exact Hnamed|].
    clear Hvals Hvals' Hnamed. revert Hall.
    induction Hl as [|val namedValue vals namedValues (vs & Hvs & Hlab) _ IH];
      intros Hall; constructor.
    + inversion Hall as [|? ? (vs' & Hvs' & Hprim) _]; subst.
      assert (vs' = vs) by congruence. subst vs'.
      exists vs. split; [exact Hvs|]. apply labelled_primitives; assumption.
    + apply IH. inversion Hall; assumption.
Qed.

End Primitives.

(** ** Components below the first level *)

(** A component without its own components. *)
Definition shallow (c : ParamType.t) : ParamType.t :=
  ParamType.Build (ParamType.name c) (ParamType.type c) None.

Lemma map_shallow (f : ParamType.t -> string) (components : list ParamType.t) :
  (forall c, f (shallow c) = f c) ->
  map f (map shallow components) = map f components.
Proof.
  intros H. rewrite map_map. apply map_ext. exact H.
Qed.

(** X13. The descriptor of a parameter is built from its name, its type
    and the names and types of its direct components, and from nothing
    below: the components of a component are not read, so a tuple inside
    a tuple enters the canonical type and the signature by the type the
    parser gave it alone. And the components of a parameter whose type is
    neither [tuple] nor [tuple[]] are not read at all. *)
Theorem schemaItemOf_reads_one_level
    (name : Name) (type : string) (components : list ParamType.t) :
  schemaItemOf (ParamType.Build name type (Some (map shallow components))) =
    schemaItemOf (ParamType.Build name type (Some components)) /\
  (type <> TUPLE_TYPE -> type <> TUPLE_ARRAY_TYPE ->
   schemaItemOf (ParamType.Build name type (Some components)) =
     schemaItemOf (ParamType.Build name type None)).
Proof.
  unfold schemaItemOf.
  cbn [ParamType.name ParamType.type ParamType.components].
  split.
  - rewrite (map_shallow ParamType.type) by reflexivity.
    rewrite (map_shallow
               (fun c => if truthy (ParamType.name c)
                         then ParamType.type c ++ " " ++ text (ParamType.name c)
                         else ParamType.type c)) by reflexivity.
    reflexivity.
  - intros Ht Ha.
    destruct (String.eqb_spec type TUPLE_TYPE); [contradiction|].
    destruct (String.eqb_spec type TUPLE_ARRAY_TYPE); [contradiction|].
    reflexivity.
Qed.

(** ** The [ipfsHash] label of a caller *)

(** A field with its label [ipfsHash] rewritten [bytes32]. *)
Definition relabel (param : SchemaItem.t Value) : SchemaItem.t Value :=
  if JS.remove_whitespace (SchemaItem.type param) =? "ipfsHash"
  then SchemaItem.Build (SchemaItem.name param) "bytes32" (SchemaItem.value param)
  else param.

Section Label.

Context {ethers : Ethers} {multiformats : Multiformats}.

Lemma encodeItem_relabel
    (schemaItem : SchemaItemWithSignature.t) (param : SchemaItem.t Value) :
  (JS.remove_whitespace (SchemaItem.type param) = "ipfsHash" ->
   SchemaItemWithSignature.type schemaItem = "bytes32") ->
  encodeItem schemaItem (relabel param) = encodeItem schemaItem param.
Proof.
  intros H. unfold relabel.
  destruct (String.eqb_spec (JS.remove_whitespace (SchemaItem.type param)) "ipfsHash")
    as [Hl|_]; [|reflexivity].
  specialize (H Hl). unfold encodeItem, incompatible_type.
  cbn [SchemaItem.type SchemaItem.name SchemaItem.value].
  rewrite Hl, H.
  change (JS.remove_whitespace "bytes32") with "bytes32".
  change ("bytes32" =? "bytes32") with true.
  change ("ipfsHash" =? "ipfsHash") with true.
  change ("ipfsHash" =? "bytes32") with false.
  cbn [negb andb]. rewrite andb_false_r. reflexivity.
Qed.

(** X14. The label [ipfsHash] on a caller's field is the label [bytes32]
    and no more: where every field labelled [ipfsHash] stands at a
    descriptor of canonical type [bytes32], [encodeData] has the same
    outcome on the list and on the list with those labels written
    [bytes32]. What is done to a value is decided by the descriptor, and
    the label does not send the value through the content-hash
    conversion. *)
Theorem encodeData_ipfsHash_label
    (this : SchemaEncoder) (params : list (SchemaItem.t Value)) :
  Forall2
    (fun schemaItem param =>
       JS.remove_whitespace (SchemaItem.type param) = "ipfsHash" ->
       SchemaItemWithSignature.type schemaItem = "bytes32")
    (schema this) params ->
  encodeData this (map relabel params) = encodeData this params.
Proof.
  intros H. unfold encodeData. rewrite length_map.
  destruct (Nat.eqb (List.length params) (List.length (schema this)));
    simpl; [|reflexivity].
  replace (encodeItems (schema this) (map relabel params))
    with (encodeItems (schema this) params); [reflexivity|].
  induction H as [|d p items params Hdp _ IH]; [reflexivity|].
  simpl. rewrite (encodeItem_relabel d p Hdp), IH. reflexivity.
Qed.

End Label.

(* ================================================================== *)
(** * The encoder at work, on the reference libraries *)

Module Examples.

#[local] Existing Instance Ref.ethers.
#[local] Existing Instance Ref.multiformats.

Definition item (name type : string) (value : Value) : SchemaItem.t Value :=
  SchemaItem.Build (Some name) type value.

(** *** The field count *)

Definition vote : SchemaEncoder :=
  {| schema :=
       [ SchemaItemWithSignature.Build (Some "eventId") "uint256"
           "uint256 eventId" (VString "0");
         SchemaItemWithSignature.Build (Some "voteIndex") "uint8"
           "uint8 voteIndex" (VString "0") ] |}.

Lemma vote_constructed : constructor "uint256 eventId, uint8 voteIndex" = Ok vote.
Proof. vm_compute; reflexivity. Qed.

Lemma encodeData_field_count_witness :
  encodeData vote [item "eventId" "uint256" (VNumber 1)]
    = Throw InvalidNumberOfValues /\
  encodeData vote [item "eventId" "uint256" (VNumber 1);
                   item "voteIndex" "uint8" (VNumber 2);
                   item "extra" "bool" (VBool true)]
    = Throw InvalidNumberOfValues.
Proof.
  split.
  - apply (encodeData_field_count vote [item "eventId" "uint256" (VNumber 1)]).
    simpl; lia.
  - apply (encodeData_field_count vote).
    simpl; lia.
Defined.

(** *** The type check: a full signature is turned down *)

(** C2. A named field given by its full signature, [uint256 eventId] for
    the field [eventId]: the sanitized type is [uint256eventId], which is
    neither the canonical type nor the signature, and [encodeData] throws
    the incompatible-type error. Given by its canonical type the same
    field is encoded. *)
Theorem encodeData_full_signature_rejected :
  constructor "uint256 eventId, uint8 voteIndex" = Ok vote /\
  encodeData vote [item "eventId" "uint256 eventId" (VNumber 1);
                   item "voteIndex" "uint8" (VNumber 2)]
    = Throw (IncompatibleParamType "uint256eventId") /\
  returns (encodeData vote [item "eventId" "uint256" (VNumber 1);
                            item "voteIndex" "uint8" (VNumber 2)]).
Proof.
  split; [vm_compute; reflexivity|].
  split; [vm_compute; reflexivity | eexists; vm_compute; reflexivity].
Qed.

(** *** Defaults *)

Definition profile_text :=
  "bool ok,uint8[] k,(uint8 a) t,address x,uint256 n,string s,(uint8[] l) u".

Definition encoder_of (schemaText : string) : SchemaEncoder :=
  match constructor schemaText with
  | Ok this => this
  | Throw _ => {| schema := [] |}
  end.

Definition profile : SchemaEncoder := Eval vm_compute in encoder_of profile_text.

Lemma constructor_defaults_witness :
  constructor profile_text = Ok profile /\
  (exists inputs,
     FunctionFragment_from
       ("func(" ++ JS.replace_all profile_text "ipfsHash" "bytes32" ++ ")")
       = Some inputs /\
     schema profile = map schemaItemOf inputs /\
     Forall2 stored_default inputs (schema profile)) /\
  map SchemaItemWithSignature.value (schema profile) =
    [VBool false; VArray []; VString ""; VString ZERO_ADDRESS;
     VString "0"; VString ""; VArray []] /\
  map SchemaItemWithSignature.type (schema profile) =
    ["bool"; "uint8[]"; "(uint8)"; "address"; "uint256"; "string"; "(uint8[])"] /\
  singleValueOf (ParamType.Build (Some "k") "uint8[]" None) = VString "0".
Proof.
  assert (Hc : constructor profile_text = Ok profile)
    by (vm_compute; reflexivity).
  split; [exact Hc|]. split; [|split; [reflexivity | split; reflexivity]].
  exact (constructor_defaults profile_text profile Hc).
Defined.

Definition listing : SchemaEncoder := Eval vm_compute in encoder_of "(uint8[] l) u".

(** C9, as stated: the default is the empty sequence "whenever the field's
    own type carries the array marker". The field [u] is a tuple, no
    array, and its default is the empty sequence, for the [[]] of its
    component; and a parameter of type [uint8[2]], an array, keeps the
    default ["0"], for its type holds no [[]]. *)
Lemma default_follows_the_marker_text :
  constructor "(uint8[] l) u" = Ok listing /\
  FunctionFragment_from "func((uint8[] l) u)"
    = Some [ParamType.Build (Some "u") "tuple"
              (Some [ParamType.Build (Some "l") "uint8[]" None])] /\
  schema listing =
    [SchemaItemWithSignature.Build (Some "u") "(uint8[])" "(uint8[] l) u"
       (VArray [])] /\
  schemaItemOf (ParamType.Build (Some "k") "uint8[2]" None) =
    SchemaItemWithSignature.Build (Some "k") "uint8[2]" "uint8[2] k"
      (VString "0").
Proof. repeat split; vm_compute; reflexivity. Qed.

(** *** The content-hash pseudo-type *)

Definition pinned_text := "ipfsHash ipfsHash,uint256 ipfsHashCount".

Definition pinned : SchemaEncoder := Eval vm_compute in encoder_of pinned_text.

Lemma ipfsHash_rewritten_in_names_witness :
  constructor pinned_text = Ok pinned /\
  map SchemaItemWithSignature.signature (schema pinned)
    = ["bytes32 bytes32"; "uint256 bytes32Count"] /\
  Forall (fun schemaItem => ipfsHash_field schemaItem = false) (schema pinned).
Proof.
  assert (Hc : constructor pinned_text = Ok pinned)
    by (vm_compute; reflexivity).
  split; [exact Hc|]. split; [reflexivity|].
  destruct (ipfsHash_rewritten_in_names pinned_text pinned Hc)
    as (_ & _ & _ & H).
  inversion H as [|d1 l1 (H1 & _ & _) Hl1]; subst.
  inversion Hl1 as [|d2 l2 (H2 & _ & _) Hl2]; subst.
  constructor; [|constructor; [|constructor]].
  - apply (H1 "bytes32"); [reflexivity | vm_compute; reflexivity].
  - apply (H2 "bytes32Count"); [reflexivity | vm_compute; reflexivity].
Defined.

(** *** The fallback of the content-hash path *)

Lemma decodeIpfsValue_fallback_witness :
  decodeIpfsValue (VString "hello world")
    = Ok (VString "0x68656c6c6f20776f726c64000000000000000000000000000000000000000000").
Proof.
  apply (decodeIpfsValue_fallback "hello world").
  - reflexivity.
  - reflexivity.
  - reflexivity.
  - vm_compute; lia.
Defined.

Definition long_text := "a note that is longer than thirty-one bytes".

(** C3, as stated: this string is not byte-like and no CID, and the
    content-hash path throws on it. *)
Lemma decodeIpfsValue_throws :
  utils.isBytesLike (VString long_text) = false /\
  isCID long_text = Ok false /\
  throws (decodeIpfsValue (VString long_text)).
Proof.
  split; [reflexivity|]. split; [reflexivity|].
  exists (LibraryError LibEthers). vm_compute; reflexivity.
Qed.

(** *** Strings in a [bytes32] field *)

Definition notes : SchemaEncoder := Eval vm_compute in encoder_of "bytes32 note".

Definition note_item : SchemaItemWithSignature.t :=
  SchemaItemWithSignature.Build (Some "note") "bytes32" "bytes32 note" (VString "").

Lemma encodeData_bytes32_string_witness :
  dataOf note_item (VString "hello")
    = Ok (VString "0x68656c6c6f000000000000000000000000000000000000000000000000000000") /\
  throws (encodeData notes [item "note" "bytes32" (VString long_text)]).
Proof.
  assert (Hname : SchemaItemWithSignature.name note_item <> Some "ipfsHash")
    by discriminate.
  split.
  - pose proof (encodeData_bytes32_string notes
                  [item "note" "bytes32" (VString "hello")] 0 note_item
                  (item "note" "bytes32" (VString "hello")) "hello"
                  eq_refl eq_refl eq_refl eq_refl Hname eq_refl eq_refl)
      as (H & _ & _).
    rewrite H. vm_compute; reflexivity.
  - pose proof (encodeData_bytes32_string notes
                  [item "note" "bytes32" (VString long_text)] 0 note_item
                  (item "note" "bytes32" (VString long_text)) long_text
                  eq_refl eq_refl eq_refl eq_refl Hname eq_refl eq_refl)
      as (_ & _ & H).
    apply H. vm_compute; lia.
Defined.

(** C4, as stated: a string of more than 31 bytes for a [bytes32] field is
    not truncated; [encodeData] throws. *)
Lemma encodeData_long_string_throws :
  constructor "bytes32 note" = Ok notes /\
  utils.isBytesLike (VString long_text) = false /\
  encodeData notes [item "note" "bytes32" (VString long_text)]
    = Throw (LibraryError LibEthers).
Proof. repeat split; vm_compute; reflexivity. Qed.

(** *** Tuples *)

Definition pair_components : list ParamType.t :=
  [ParamType.Build (Some "a") "uint256" None;
   ParamType.Build (Some "b") "bool" None].

Definition pair_item : SchemaItemWithSignature.t :=
  SchemaItemWithSignature.Build (Some "t") "(uint256,bool)"
    "(uint256 a,bool b) t" (VString "").

Definition pairs : SchemaEncoder :=
  Eval vm_compute in encoder_of "(uint256 a,bool b) t".

Definition pairs_bytes : string :=
  Eval vm_compute in
    match encodeData pairs
            [item "t" "(uint256,bool)" (VArray [VNumber 7; VBool true])] with
    | Ok bytes => bytes
    | Throw _ => ""
    end.

Definition pairs_decoded : SchemaDecodedItem.t :=
  {| SchemaDecodedItem.name := Some "t";
     SchemaDecodedItem.type := "(uint256,bool)";
     SchemaDecodedItem.signature := "(uint256 a,bool b) t";
     SchemaDecodedItem.value :=
       SchemaItem.Build (Some "t") "(uint256,bool)"
         (Named [SchemaItem.Build (Some "a") "uint256" (VBool true)]) |}.

Definition list_components : list ParamType.t :=
  [ParamType.Build (Some "names") "string[]" None;
   ParamType.Build (Some "l") "uint8[]" None].

Definition lists_item : SchemaItemWithSignature.t :=
  SchemaItemWithSignature.Build (Some "t") "(string[],uint8[])"
    "(string[] names,uint8[] l) t" (VArray []).

Definition lists : SchemaEncoder :=
  Eval vm_compute in encoder_of "(string[] names,uint8[] l) t".

Definition lists_value : Value :=
  VArray [VArray [VString "x"; VString "y"]; VArray [VNumber 7]].

Definition lists_bytes : string :=
  Eval vm_compute in
    match encodeData lists [item "t" "(string[],uint8[])" lists_value] with
    | Ok bytes => bytes
    | Throw _ => ""
    end.

Definition lists_named : list (list (SchemaItem.t Value)) :=
  [ [SchemaItem.Build (Some "names") "string[]" (VString "x");
     SchemaItem.Build (Some "l") "uint8[]" (VString "y")];
    [SchemaItem.Build (Some "names") "string[]" (VNumber 7)] ].

Definition lists_decoded : SchemaDecodedItem.t :=
  {| SchemaDecodedItem.name := Some "t";
     SchemaDecodedItem.type := "(string[],uint8[])";
     SchemaDecodedItem.signature := "(string[] names,uint8[] l) t";
     SchemaDecodedItem.value :=
       SchemaItem.Build (Some "t") "(string[],uint8[])" (NamedList lists_named) |}.

(** The tuple [(uint256 a, bool b)], encoded from 7 and [true] and decoded:
    the coder gives a [BigNumber] and a boolean, the [BigNumber] is
    filtered out and the boolean is labelled [a: uint256]. And the tuple
    [(string[] names, uint8[] l)], one tuple whose first component is an
    array: each of its two arrays is labelled as if it were a tuple, the
    strings [names] and [l], the number [names]. *)
Lemma tuple_labels_by_filtered_position_witness :
  encodeData pairs [item "t" "(uint256,bool)" (VArray [VNumber 7; VBool true])]
    = Ok pairs_bytes /\
  decodeData pairs pairs_bytes = Ok [pairs_decoded] /\
  labelled pair_components [VBigNumber 7; VBool true]
    [SchemaItem.Build (Some "a") "uint256" (VBool true)] /\
  decodeData lists lists_bytes = Ok [lists_decoded] /\
  Forall2
    (fun val namedValue =>
       exists vs, Val.elements val = Some vs /\
                  labelled list_components vs namedValue)
    [VArray [VString "x"; VString "y"]; VArray [VNumber 7]] lists_named.
Proof.
  split; [vm_compute; reflexivity|].
  assert (Hd : decodeData pairs pairs_bytes = Ok [pairs_decoded])
    by (vm_compute; reflexivity).
  split; [exact Hd|].
  assert (Hv : defaultAbiCoder_decode (signatures pairs) pairs_bytes
               = Some [VArray [VBigNumber 7; VBool true]])
    by (vm_compute; reflexivity).
  assert (Hp : FunctionFragment_from
                 ("func(" ++ SchemaItemWithSignature.signature pair_item ++ ")")
               = Some [ParamType.Build (Some "t") "tuple" (Some pair_components)])
    by (vm_compute; reflexivity).
  split.
  { destruct (tuple_labels_by_filtered_position pairs pairs_bytes [pairs_decoded]
                [VArray [VBigNumber 7; VBool true]] 0 pair_item pairs_decoded
                (ParamType.Build (Some "t") "tuple" (Some pair_components))
                pair_components (VArray [VBigNumber 7; VBool true])
                Hd Hv eq_refl eq_refl eq_refl Hp eq_refl eq_refl) as [H _].
    destruct (H eq_refl) as (vs & namedValue & Hvs & Hnv & Hl).
    injection Hvs as <-. injection Hnv as <-. exact Hl. }
  assert (Hd' : decodeData lists lists_bytes = Ok [lists_decoded])
    by (vm_compute; reflexivity).
  split; [exact Hd'|].
  assert (Hv' : defaultAbiCoder_decode (signatures lists) lists_bytes
                = Some [lists_value])
    by (vm_compute; reflexivity).
  assert (Hp' : FunctionFragment_from
                  ("func(" ++ SchemaItemWithSignature.signature lists_item ++ ")")
                = Some [ParamType.Build (Some "t") "tuple" (Some list_components)])
    by (vm_compute; reflexivity).
  destruct (tuple_labels_by_filtered_position lists lists_bytes [lists_decoded]
              [lists_value] 0 lists_item lists_decoded
              (ParamType.Build (Some "t") "tuple" (Some list_components))
              list_components lists_value
              Hd' Hv' eq_refl eq_refl eq_refl Hp' eq_refl eq_refl) as [_ H].
  destruct (H eq_refl) as (vals & namedValues & Hvals & Hnv & Hl).
  injection Hvals as <-. injection Hnv as <-. exact Hl.
Defined.

(** C6, as stated. The tuple [(uint256 a, bool b)] decodes to a
    [BigNumber] and a boolean: the [BigNumber], an object, is not in the
    output of [decodeData] at all, with or without a name; the one entry is
    the boolean, labelled [a: uint256]. And a tuple whose first component
    is an array is taken for an array of tuples: the scalar behind the
    array gets no name, the labelling ends in a [TypeError]. *)
Lemma composite_subvalues_dropped :
  defaultAbiCoder_decode (signatures pairs) pairs_bytes
    = Some [VArray [VBigNumber 7; VBool true]] /\
  (exists namedValue,
     decodeData pairs pairs_bytes =
       Ok [ {| SchemaDecodedItem.name := Some "t";
               SchemaDecodedItem.type := "(uint256,bool)";
               SchemaDecodedItem.signature := "(uint256 a,bool b) t";
               SchemaDecodedItem.value :=
                 SchemaItem.Build (Some "t") "(uint256,bool)" (Named namedValue) |} ] /\
     namedValue = [SchemaItem.Build (Some "a") "uint256" (VBool true)] /\
     ~ In (VBigNumber 7) (map SchemaItem.value namedValue)) /\
  wrap pair_item (Some pair_components)
    (VArray [VArray [VNumber 1; VNumber 2]; VBool true]) = Throw TypeError.
Proof.
  split; [vm_compute; reflexivity|]. split; [|reflexivity].
  eexists; split; [vm_compute; reflexivity|]. split; [reflexivity|].
  simpl. intros [H|[]]. discriminate.
Qed.

(** *** Encoding, then decoding *)

Definition receipt_text := "uint256 amount,bool ok,bytes32 tag,(uint8 a,bool c)[] items".

Definition receipt : SchemaEncoder := Eval vm_compute in encoder_of receipt_text.

Definition receipt_params : list (SchemaItem.t Value) :=
  [ item "amount" "uint256" (VNumber 5);
    item "ok" "bool" (VBool true);
    item "tag" "bytes32" (VString "paid");
    item "items" "(uint8, bool)[]"
      (VArray [VArray [VNumber 1; VBool true]; VArray [VNumber 2; VBool false]]) ].

Definition receipt_bytes : string :=
  Eval vm_compute in
    match encodeData receipt receipt_params with
    | Ok bytes => bytes
    | Throw _ => ""
    end.

Definition receipt_values : list Value :=
  [ VBigNumber 5; VBool true;
    VString "0x7061696400000000000000000000000000000000000000000000000000000000";
    VArray [VArray [VNumber 1; VBool true]; VArray [VNumber 2; VBool false]] ].

Lemma decodeData_encodeData_witness :
  exists decoded,
    decodeData receipt receipt_bytes = Ok decoded /\
    map SchemaDecodedItem.name decoded
      = [Some "amount"; Some "ok"; Some "tag"; Some "items"] /\
    map SchemaDecodedItem.type decoded
      = ["uint256"; "bool"; "bytes32"; "(uint8,bool)[]"] /\
    map (fun r => SchemaItem.value (SchemaDecodedItem.value r)) (firstn 3 decoded)
      = [ Raw (VBigNumber 5); Raw (VBool true);
          Raw (VString
                 "0x7061696400000000000000000000000000000000000000000000000000000000") ].
Proof.
  assert (He : encodeData receipt receipt_params = Ok receipt_bytes)
    by (vm_compute; reflexivity).
  assert (Hd : defaultAbiCoder_decode (signatures receipt) receipt_bytes
               = Some receipt_values)
    by (vm_compute; reflexivity).
  assert (Hs : Forall2 (fun d v => decodable d v = true)
                 (schema receipt) receipt_values)
    by (repeat (constructor; [vm_compute; reflexivity|]); constructor).
  destruct (decodeData_encodeData receipt receipt_params
              receipt_bytes receipt_values He Hd Hs)
    as (data & decoded & _ & _ & _ & Hdecoded & _ & _).
  exists decoded. split; [exact Hdecoded|].
  vm_compute in Hdecoded. injection Hdecoded as <-.
  repeat split.
Defined.

Definition tagged_text := "(uint8[] l,bool b) t".

Definition tagged : SchemaEncoder := Eval vm_compute in encoder_of tagged_text.

Definition tagged_params : list (SchemaItem.t Value) :=
  [ item "t" "(uint8[],bool)" (VArray [VArray [VNumber 1; VNumber 2]; VBool true]) ].

(** C1. A tuple whose first component is an array: the schema is accepted
    and so is the value, the coder decodes the bytes into the array and the
    boolean, and [decodeData], which takes a value whose first element is
    an array for an array of tuples, calls [filter] on the boolean: it
    throws a [TypeError] where a record was due. *)
Theorem decodeData_throws_on_encoded_tuple :
  constructor tagged_text = Ok tagged /\
  exists bytes,
    encodeData tagged tagged_params = Ok bytes /\
    defaultAbiCoder_decode (signatures tagged) bytes
      = Some [VArray [VArray [VNumber 1; VNumber 2]; VBool true]] /\
    decodeData tagged bytes = Throw TypeError.
Proof.
  split; [vm_compute; reflexivity|].
  eexists. split; [vm_compute; reflexivity|].
  split; vm_compute; reflexivity.
Qed.

(** *** Validity *)

Lemma isEncodedDataValid_total_witness :
  isEncodedDataValid receipt receipt_bytes = Ok true /\
  isEncodedDataValid receipt "0x1234" = Ok false /\
  isEncodedDataValid receipt "not bytes" = Ok false.
Proof.
  split; [|split].
  - apply (isEncodedDataValid_total receipt receipt_bytes).
    eexists; vm_compute; reflexivity.
  - apply (isEncodedDataValid_total receipt "0x1234").
    eexists; vm_compute; reflexivity.
  - apply (isEncodedDataValid_total receipt "not bytes").
    eexists; vm_compute; reflexivity.
Defined.

(** *** CIDs *)

Definition readme_cid := "QmYwAPJzv5CZsnA625s3Xf2nemtYgPpHdWEz79ojWnPbdG".

Lemma decodeQmHash_encodeQmHash_witness :
  encodeQmHash readme_cid
    = Ok "0x9d6c2be50f706953479ab9df2ce3edca90b68053c00b3004b7f0accbe1e8eedf" /\
  decodeQmHash "0x9d6c2be50f706953479ab9df2ce3edca90b68053c00b3004b7f0accbe1e8eedf"
    = readme_cid.
Proof.
  destruct (Ref.parse (VString readme_cid)) as [a|] eqn:Hparse;
    [|vm_compute in Hparse; discriminate].
  destruct decodeQmHash_encodeQmHash as (_ & _ & H).
  destruct (H readme_cid a Hparse) as (encoded & He & Hd).
  - vm_compute in Hparse. injection Hparse as <-. vm_compute; reflexivity.
  - vm_compute in Hparse. injection Hparse as <-. vm_compute; reflexivity.
  - vm_compute in Hparse. injection Hparse as <-. vm_compute; reflexivity.
  - assert (encoded =
            "0x9d6c2be50f706953479ab9df2ce3edca90b68053c00b3004b7f0accbe1e8eedf").
    { vm_compute in He. congruence. }
    subst encoded. split; assumption.
Defined.


(** *** The type check, the name check and the order of the errors *)

Definition voteIndex_item : SchemaItemWithSignature.t :=
  SchemaItemWithSignature.Build (Some "voteIndex") "uint8"
    "uint8 voteIndex" (VString "0").

Lemma signature_alternative_redundant_witness :
  incompatible_type (JS.remove_whitespace "uint8 voteIndex")
    (schemaItemOf (ParamType.Build (Some "voteIndex") "uint8" None)) = true /\
  incompatible_type (JS.remove_whitespace " uint8 ")
    (schemaItemOf (ParamType.Build (Some "voteIndex") "uint8" None)) = false.
Proof.
  split.
  - destruct (incompatible_type (JS.remove_whitespace "uint8 voteIndex")
                (schemaItemOf (ParamType.Build (Some "voteIndex") "uint8" None)))
      eqn:H; [reflexivity|].
    apply (signature_alternative_redundant
             (ParamType.Build (Some "voteIndex") "uint8" None)
             "uint8 voteIndex") in H.
    destruct H as [H|[H _]]; vm_compute in H; discriminate H.
  - apply (signature_alternative_redundant
             (ParamType.Build (Some "voteIndex") "uint8" None) " uint8 ").
    left. reflexivity.
Defined.

Lemma encodeData_returns_iff_witness :
  encodeData vote [item "eventId" "uint256" (VNumber 1);
                   item "voteIndex" "uint8" (VNumber 2)]
    = Ok "0x00000000000000000000000000000000000000000000000000000000000000010000000000000000000000000000000000000000000000000000000000000002".
Proof.
  apply (encodeData_returns_iff vote).
  split; [reflexivity|].
  exists [VNumber 1; VNumber 2]. split.
  - constructor; [split; [reflexivity | split; reflexivity]|].
    constructor; [split; [reflexivity | split; reflexivity]|].
    constructor.
  - vm_compute; reflexivity.
Defined.

Lemma encodeData_first_failure_witness :
  encodeData vote [item "eventId" "uint256" (VNumber 1);
                   item "voteIdx" "uint16" (VNumber 2)]
    = Throw (IncompatibleParamType "uint16") /\
  encodeData vote [item "eventId" "uint256" (VNumber 1);
                   item "voteIdx" "uint 8" (VNumber 2)]
    = Throw (IncompatibleParamName "voteIdx") /\
  encodeData notes [item "note" " bytes32" (VString long_text)]
    = Throw (LibraryError LibEthers).
Proof.
  assert (Hfirst : forall j d p,
             j < 1 ->
             nth_error (schema vote) j = Some d ->
             nth_error [item "eventId" "uint256" (VNumber 1)] j = Some p ->
             returns (encodeItem d p)).
  { intros [|j] d p Hj Hd Hp; [|lia].
    injection Hd as <-. injection Hp as <-. eexists; reflexivity. }
  split; [|split].
  - destruct (encodeData_first_failure vote
                [item "eventId" "uint256" (VNumber 1);
                 item "voteIdx" "uint16" (VNumber 2)]
                1 voteIndex_item (item "voteIdx" "uint16" (VNumber 2))
                eq_refl eq_refl eq_refl) as (H & _ & _).
    + intros [|j] d p Hj Hd Hp; [|lia]. apply (Hfirst 0 d p Hj Hd Hp).
    + exact (H eq_refl).
  - destruct (encodeData_first_failure vote
                [item "eventId" "uint256" (VNumber 1);
                 item "voteIdx" "uint 8" (VNumber 2)]
                1 voteIndex_item (item "voteIdx" "uint 8" (VNumber 2))
                eq_refl eq_refl eq_refl) as (_ & H & _).
    + intros [|j] d p Hj Hd Hp; [|lia]. apply (Hfirst 0 d p Hj Hd Hp).
    + apply H; [reflexivity | discriminate].
  - destruct (encodeData_first_failure notes
                [item "note" " bytes32" (VString long_text)]
                0 note_item (item "note" " bytes32" (VString long_text))
                eq_refl eq_refl eq_refl) as (_ & _ & H).
    + intros j d p Hj. lia.
    + apply H; [reflexivity | reflexivity | vm_compute; reflexivity].
Defined.

Lemma encodeData_whitespace_insensitive_witness :
  encodeData vote [item "eventId" " uint256 " (VNumber 1);
                   item "voteIndex" "uint 8" (VNumber 2)] =
  encodeData vote [item "eventId" "uint256" (VNumber 1);
                   item "voteIndex" "uint8" (VNumber 2)].
Proof.
  apply (encodeData_whitespace_insensitive vote).
  constructor; [split; [reflexivity | split; reflexivity]|].
  constructor; [split; [reflexivity | split; reflexivity]|].
  constructor.
Defined.

(** *** The values handed to the coder *)

Lemma dataOf_transforms_bytes32_strings_only_witness :
  dataOf note_item (VString "hello")
    = Ok (VString "0x68656c6c6f000000000000000000000000000000000000000000000000000000") /\
  dataOf note_item
    (VString "0x68656c6c6f000000000000000000000000000000000000000000000000000000")
    = Ok (VString "0x68656c6c6f000000000000000000000000000000000000000000000000000000") /\
  dataOf voteIndex_item (VString "hello") = Ok (VString "hello").
Proof.
  assert (H : dataOf note_item (VString "hello")
              = Ok (VString "0x68656c6c6f000000000000000000000000000000000000000000000000000000"))
    by (vm_compute; reflexivity).
  assert (H' : dataOf voteIndex_item (VString "hello") = Ok (VString "hello"))
    by reflexivity.
  split; [exact H|]. split.
  - exact (proj2 (proj2 (dataOf_transforms_bytes32_strings_only
                           note_item (VString "hello") _ eq_refl H))).
  - exact (proj2 (proj2 (dataOf_transforms_bytes32_strings_only
                           voteIndex_item (VString "hello") _ eq_refl H'))).
Defined.

(** *** The [ipfsHash] pseudo-type *)

Lemma constructor_ipfsHash_alias_witness :
  constructor "bytes32 bytes32,uint256 bytes32Count" = constructor pinned_text /\
  constructor pinned_text = Ok pinned.
Proof.
  split; [|vm_compute; reflexivity].
  exact (proj2 (constructor_ipfsHash_alias pinned_text)).
Defined.

Lemma encodeData_ipfsHash_label_witness :
  encodeData notes [item "note" "bytes32" (VString readme_cid)] =
  encodeData notes [item "note" "ipfsHash" (VString readme_cid)] /\
  encodeData notes [item "note" "ipfsHash" (VString readme_cid)]
    = Throw (LibraryError LibEthers).
Proof.
  split; [|vm_compute; reflexivity].
  apply (encodeData_ipfsHash_label notes
           [item "note" "ipfsHash" (VString readme_cid)]).
  constructor; [intros _; reflexivity | constructor].
Defined.

(** *** The content-hash helpers *)

Definition readme_digest :=
  "0x9d6c2be50f706953479ab9df2ce3edca90b68053c00b3004b7f0accbe1e8eedf".

Definition glued_text := "bytes32 ipfs(uint8 a)Hash".

Definition glued : SchemaEncoder := Eval vm_compute in encoder_of glued_text.

(** C5, as stated: "no field of a constructed encoder has a name that
    contains [ipfsHash], and the branch is unreachable". This schema text
    has no [ipfsHash] in it, before or after the rewriting; the parser
    reads the name on both sides of the parenthesis and returns
    [ipfsHash]. The encoder is constructed, its field is of type
    [bytes32] and named [ipfsHash], the test of the branch holds, and
    [encodeData] sends a CID through [decodeIpfsValue]: the bytes are the
    digest of the CID. *)
Lemma ipfsHash_branch_reached :
  JS.includes glued_text "ipfsHash" = false /\
  JS.replace_all glued_text "ipfsHash" "bytes32" = glued_text /\
  constructor glued_text = Ok glued /\
  schema glued =
    [SchemaItemWithSignature.Build (Some "ipfsHash") "bytes32"
       "bytes32 ipfsHash" (VString "")] /\
  Forall (fun schemaItem => ipfsHash_field schemaItem = true) (schema glued) /\
  encodeData glued [item "ipfsHash" "bytes32" (VString readme_cid)]
    = Ok readme_digest.
Proof.
  split; [reflexivity|]. split; [reflexivity|].
  split; [vm_compute; reflexivity|]. split; [reflexivity|].
  split; [repeat constructor | vm_compute; reflexivity].
Qed.

Lemma decodeIpfsValue_encodeQmHash_witness :
  decodeIpfsValue (VString readme_cid) = Ok (VString readme_digest) /\
  decodeIpfsValue (VString readme_digest) = Ok (VString readme_digest).
Proof.
  destruct (decodeIpfsValue_encodeQmHash readme_cid) as (Hcid & _).
  destruct (decodeIpfsValue_encodeQmHash readme_digest) as (_ & _ & Hbytes & Hself).
  split.
  - apply Hcid; [reflexivity | vm_compute; reflexivity].
  - rewrite Hbytes by reflexivity.
    apply (Hself readme_digest). vm_compute; reflexivity.
Defined.

Lemma isCID_encodeQmHash_witness :
  isCID readme_cid = Ok true /\
  encodeQmHash "hello" = Throw (LibraryError LibMultiformats).
Proof.
  split.
  - apply (isCID_encodeQmHash readme_cid).
    exists readme_digest. vm_compute; reflexivity.
  - apply (isCID_encodeQmHash "hello"). reflexivity.
Defined.

(** *** The records of [decodeData] *)

Definition receipt_decoded : list SchemaDecodedItem.t :=
  Eval vm_compute in
    match decodeData receipt receipt_bytes with
    | Ok decoded => decoded
    | Throw _ => []
    end.

Lemma decodeData_records_witness :
  decodeData receipt receipt_bytes = Ok receipt_decoded /\
  exists values,
    defaultAbiCoder_decode (signatures receipt) receipt_bytes = Some values /\
    List.length (schema receipt) <= List.length values /\
    List.length receipt_decoded = List.length (schema receipt).
Proof.
  assert (H : decodeData receipt receipt_bytes = Ok receipt_decoded)
    by (vm_compute; reflexivity).
  split; [exact H|].
  destruct (decodeData_records receipt receipt_bytes receipt_decoded H)
    as (values & Hv & Hle & Hlen & _).
  exists values. split; [exact Hv|]. split; [exact Hle | exact Hlen].
Defined.

(** *** Tuples of primitive values *)

Definition flag_components : list ParamType.t :=
  [ParamType.Build (Some "a") "uint8" None;
   ParamType.Build (Some "c") "bool" None].

Definition items_item : SchemaItemWithSignature.t :=
  SchemaItemWithSignature.Build (Some "items") "(uint8,bool)[]"
    "(uint8 a,bool c)[] items" (VArray []).

Definition items_decoded : SchemaDecodedItem.t :=
  {| SchemaDecodedItem.name := Some "items";
     SchemaDecodedItem.type := "(uint8,bool)[]";
     SchemaDecodedItem.signature := "(uint8 a,bool c)[] items";
     SchemaDecodedItem.value :=
       SchemaItem.Build (Some "items") "(uint8,bool)[]"
         (NamedList
            [ [SchemaItem.Build (Some "a") "uint8" (VNumber 1);
               SchemaItem.Build (Some "c") "bool" (VBool true)];
              [SchemaItem.Build (Some "a") "uint8" (VNumber 2);
               SchemaItem.Build (Some "c") "bool" (VBool false)] ]) |}.

Lemma tuple_of_primitives_labelled_in_place_witness :
  nth_error receipt_decoded 3 = Some items_decoded /\
  Forall2
    (fun val namedValue =>
       exists vs, Val.elements val = Some vs /\
                  labelled_in_place flag_components vs namedValue)
    [VArray [VNumber 1; VBool true]; VArray [VNumber 2; VBool false]]
    [ [SchemaItem.Build (Some "a") "uint8" (VNumber 1);
       SchemaItem.Build (Some "c") "bool" (VBool true)];
      [SchemaItem.Build (Some "a") "uint8" (VNumber 2);
       SchemaItem.Build (Some "c") "bool" (VBool false)] ].
Proof.
  split; [reflexivity|].
  assert (Hd : decodeData receipt receipt_bytes = Ok receipt_decoded)
    by (vm_compute; reflexivity).
  assert (Hv : defaultAbiCoder_decode (signatures receipt) receipt_bytes
               = Some receipt_values)
    by (vm_compute; reflexivity).
  assert (Hp : FunctionFragment_from
                 ("func(" ++ SchemaItemWithSignature.signature items_item ++ ")")
               = Some [ParamType.Build (Some "items") "tuple[]"
                         (Some flag_components)])
    by (vm_compute; reflexivity).
  destruct (tuple_of_primitives_labelled_in_place receipt receipt_bytes
              receipt_decoded receipt_values 3 items_item items_decoded
              (ParamType.Build (Some "items") "tuple[]" (Some flag_components))
              flag_components
              (VArray [VArray [VNumber 1; VBool true];
                       VArray [VNumber 2; VBool false]])
              Hd Hv eq_refl eq_refl eq_refl Hp eq_refl eq_refl) as [_ H].
  destruct (H eq_refl _ eq_refl) as (namedValues & Hnv & Hl).
  - constructor; [eexists; split; reflexivity|].
    constructor; [eexists; split; reflexivity|].
    constructor.
  - injection Hnv as <-. exact Hl.
Defined.

(** *** A tuple inside a tuple *)

Definition nested_param : ParamType.t :=
  ParamType.Build (Some "outer") "tuple"
    (Some [ParamType.Build (Some "inner") "tuple" (Some flag_components);
           ParamType.Build (Some "b") "bool" None]).

Lemma schemaItemOf_reads_one_level_witness :
  FunctionFragment_from "func(((uint8 a,bool c) inner,bool b) outer)"
    = Some [nested_param] /\
  schemaItemOf nested_param =
    SchemaItemWithSignature.Build (Some "outer") "(tuple,bool)"
      "(tuple inner,bool b) outer" (VString "").
Proof.
  split; [vm_compute; reflexivity|].
  unfold nested_param.
  rewrite <- (proj1 (schemaItemOf_reads_one_level (Some "outer") "tuple"
                       [ParamType.Build (Some "inner") "tuple" (Some flag_components);
                        ParamType.Build (Some "b") "bool" None])).
  vm_compute; reflexivity.
Defined.

End Examples.
